(** * MeshModel (src/common/ml_document/mesh_model.cpp): data masks and textures

    A shallow embedding of the data-mask table and of the texture
    bookkeeping of [MeshModel].  C++ [int] masks are modelled as [Z]; the
    bitwise operators [&], [|] and [~] are [Z.land], [Z.lor] and [Z.lnot],
    which coincide with two's complement on 32-bit values, so no wrap-around
    has to be written out (none of them leaves the signed 32-bit range). *)

From Stdlib Require Import ZArith Bool Btauto List Lia.
From stdpp Require Import base gmap strings list.
Import ListNotations.
Open Scope Z_scope.

(** ** The MM_* bits of [MeshModel::MeshElement] *)

(** Modelled from the spec: the enumeration [MeshModel::MeshElement] lives
    in mesh_model.h, which is not part of the sources.  The spec describes
    the data mask as a bit-flag set, so each element is a distinct single
    bit; the positions are those of the MeshLab header. *)
Definition MM_NONE          : Z := 0.
Definition MM_VERTCOORD     : Z := Z.shiftl 1 0.
Definition MM_VERTNORMAL    : Z := Z.shiftl 1 1.
Definition MM_VERTFLAG      : Z := Z.shiftl 1 2.
Definition MM_VERTCOLOR     : Z := Z.shiftl 1 3.
Definition MM_VERTQUALITY   : Z := Z.shiftl 1 4.
Definition MM_VERTMARK      : Z := Z.shiftl 1 5.
Definition MM_VERTFACETOPO  : Z := Z.shiftl 1 6.
Definition MM_VERTCURV      : Z := Z.shiftl 1 7.
Definition MM_VERTCURVDIR   : Z := Z.shiftl 1 8.
Definition MM_VERTRADIUS    : Z := Z.shiftl 1 9.
Definition MM_VERTTEXCOORD  : Z := Z.shiftl 1 10.
Definition MM_VERTNUMBER    : Z := Z.shiftl 1 11.
Definition MM_FACEVERT      : Z := Z.shiftl 1 12.
Definition MM_FACENORMAL    : Z := Z.shiftl 1 13.
Definition MM_FACEFLAG      : Z := Z.shiftl 1 14.
Definition MM_FACECOLOR     : Z := Z.shiftl 1 15.
Definition MM_FACEQUALITY   : Z := Z.shiftl 1 16.
Definition MM_FACEMARK      : Z := Z.shiftl 1 17.
Definition MM_FACEFACETOPO  : Z := Z.shiftl 1 18.
Definition MM_FACENUMBER    : Z := Z.shiftl 1 19.
Definition MM_FACECURVDIR   : Z := Z.shiftl 1 20.
Definition MM_WEDGTEXCOORD  : Z := Z.shiftl 1 21.
Definition MM_WEDGNORMAL    : Z := Z.shiftl 1 22.
Definition MM_WEDGCOLOR     : Z := Z.shiftl 1 23.
Definition MM_VERTFLAGSELECT : Z := Z.shiftl 1 24.
Definition MM_FACEFLAGSELECT : Z := Z.shiftl 1 25.
Definition MM_CAMERA        : Z := Z.shiftl 1 27.
Definition MM_TRANSFMATRIX  : Z := Z.shiftl 1 28.
Definition MM_COLOR         : Z := Z.shiftl 1 29.
Definition MM_POLYGONAL     : Z := Z.shiftl 1 30.

(** ** The IOM_* bits of [vcg::tri::io::Mask] (vcglib, io_mask.h) *)

Definition IOM_NONE         : Z := 0.
Definition IOM_VERTCOORD    : Z := Z.shiftl 1 0.
Definition IOM_VERTFLAGS    : Z := Z.shiftl 1 1.
Definition IOM_VERTCOLOR    : Z := Z.shiftl 1 2.
Definition IOM_VERTQUALITY  : Z := Z.shiftl 1 3.
Definition IOM_VERTNORMAL   : Z := Z.shiftl 1 4.
Definition IOM_VERTTEXCOORD : Z := Z.shiftl 1 5.
Definition IOM_FACEINDEX    : Z := Z.shiftl 1 6.
Definition IOM_FACEFLAGS    : Z := Z.shiftl 1 7.
Definition IOM_FACECOLOR    : Z := Z.shiftl 1 8.
Definition IOM_FACEQUALITY  : Z := Z.shiftl 1 9.
Definition IOM_FACENORMAL   : Z := Z.shiftl 1 10.
Definition IOM_WEDGCOORD    : Z := Z.shiftl 1 11.
Definition IOM_WEDGTEXCOORD : Z := Z.shiftl 1 12.
Definition IOM_WEDGTEXMULTI : Z := Z.shiftl 1 13.
Definition IOM_WEDGCOLOR    : Z := Z.shiftl 1 14.
Definition IOM_WEDGNORMAL   : Z := Z.shiftl 1 15.
Definition IOM_VERTRADIUS   : Z := Z.shiftl 1 16.
Definition IOM_BITPOLYGONAL : Z := Z.shiftl 1 17.
Definition IOM_CAMERA       : Z := Z.shiftl 1 18.

(** C++'s implicit conversion of an [int] to [bool]. *)
Definition int_to_bool (x : Z) : bool := negb (x =? 0).

(** ** The optional ("ocf") components of vcglib's [CMeshO] *)

Module Vcg.

(** Whether each optional per-vertex buffer of [CMeshO::vert] is allocated. *)
Record VertexOcf := mkVertexOcf {
  VFAdjacency : bool;
  VMark : bool;
  VTexCoord : bool;
  VCurvature : bool;
  VCurvatureDir : bool;
  VRadius : bool
}.

(** Whether each optional per-face buffer of [CMeshO::face] is allocated. *)
Record FaceOcf := mkFaceOcf {
  FFAdjacency : bool;
  FVFAdjacency : bool;
  FQuality : bool;
  FMark : bool;
  FColor : bool;
  FCurvatureDir : bool;
  FWedgeTexCoord : bool
}.

(** A 4x4 transform, row major; [SetIdentity] writes the identity. *)
Definition Matrix44 := list (list Z).
Definition Identity44 : Matrix44 :=
  [[1;0;0;0];[0;1;0;0];[0;0;1;0];[0;0;0;1]].

Record CMeshO := mkCMeshO {
  vert : VertexOcf;
  face : FaceOcf;
  Tr : Matrix44;
  sfn : Z;
  svn : Z;
  textures : list string
}.

(** A freshly built [vector_ocf] has every optional component disabled. *)
Definition vert_none : VertexOcf := mkVertexOcf false false false false false false.
Definition face_none : FaceOcf := mkFaceOcf false false false false false false false.

Definition set_vert (cm : CMeshO) (v : VertexOcf) : CMeshO :=
  mkCMeshO v (face cm) (Tr cm) (sfn cm) (svn cm) (textures cm).
Definition set_face (cm : CMeshO) (f : FaceOcf) : CMeshO :=
  mkCMeshO (vert cm) f (Tr cm) (sfn cm) (svn cm) (textures cm).
Definition set_textures (cm : CMeshO) (l : list string) : CMeshO :=
  mkCMeshO (vert cm) (face cm) (Tr cm) (sfn cm) (svn cm) l.

(** [cm.vert.Enable*] / [cm.vert.Disable*]: set one flag of the vertex
    container.  [VertexOcf] fields in declaration order. *)
Definition vert_with (v : VertexOcf)
    (vf mk tc cu cd rd : bool -> bool) : VertexOcf :=
  mkVertexOcf (vf (VFAdjacency v)) (mk (VMark v)) (tc (VTexCoord v))
              (cu (VCurvature v)) (cd (VCurvatureDir v)) (rd (VRadius v)).
Definition face_with (f : FaceOcf)
    (ff vf q mk c cd wt : bool -> bool) : FaceOcf :=
  mkFaceOcf (ff (FFAdjacency f)) (vf (FVFAdjacency f)) (q (FQuality f))
            (mk (FMark f)) (c (FColor f)) (cd (FCurvatureDir f))
            (wt (FWedgeTexCoord f)).

Definition keep (b : bool) : bool := b.
Definition on (_ : bool) : bool := true.
Definition off (_ : bool) : bool := false.

Definition vert_EnableVFAdjacency cm := set_vert cm (vert_with (vert cm) on keep keep keep keep keep).
Definition vert_EnableMark cm := set_vert cm (vert_with (vert cm) keep on keep keep keep keep).
Definition vert_EnableTexCoord cm := set_vert cm (vert_with (vert cm) keep keep on keep keep keep).
Definition vert_EnableCurvatureDir cm := set_vert cm (vert_with (vert cm) keep keep keep keep on keep).
Definition vert_EnableRadius cm := set_vert cm (vert_with (vert cm) keep keep keep keep keep on).
Definition vert_DisableVFAdjacency cm := set_vert cm (vert_with (vert cm) off keep keep keep keep keep).
Definition vert_DisableMark cm := set_vert cm (vert_with (vert cm) keep off keep keep keep keep).
Definition vert_DisableTexCoord cm := set_vert cm (vert_with (vert cm) keep keep off keep keep keep).
Definition vert_DisableCurvature cm := set_vert cm (vert_with (vert cm) keep keep keep off keep keep).
Definition vert_DisableCurvatureDir cm := set_vert cm (vert_with (vert cm) keep keep keep keep off keep).
Definition vert_DisableRadius cm := set_vert cm (vert_with (vert cm) keep keep keep keep keep off).

Definition face_EnableFFAdjacency cm := set_face cm (face_with (face cm) on keep keep keep keep keep keep).
Definition face_EnableVFAdjacency cm := set_face cm (face_with (face cm) keep on keep keep keep keep keep).
Definition face_EnableQuality cm := set_face cm (face_with (face cm) keep keep on keep keep keep keep).
Definition face_EnableMark cm := set_face cm (face_with (face cm) keep keep keep on keep keep keep).
Definition face_EnableColor cm := set_face cm (face_with (face cm) keep keep keep keep on keep keep).
Definition face_EnableCurvatureDir cm := set_face cm (face_with (face cm) keep keep keep keep keep on keep).
Definition face_EnableWedgeTexCoord cm := set_face cm (face_with (face cm) keep keep keep keep keep keep on).
Definition face_DisableFFAdjacency cm := set_face cm (face_with (face cm) off keep keep keep keep keep keep).
Definition face_DisableVFAdjacency cm := set_face cm (face_with (face cm) keep off keep keep keep keep keep).
Definition face_DisableQuality cm := set_face cm (face_with (face cm) keep keep off keep keep keep keep).
Definition face_DisableMark cm := set_face cm (face_with (face cm) keep keep keep off keep keep keep).
Definition face_DisableColor cm := set_face cm (face_with (face cm) keep keep keep keep off keep keep).
Definition face_DisableWedgeTexCoord cm := set_face cm (face_with (face cm) keep keep keep keep keep keep off).

(** [tri::UpdateTopology<CMeshO>::FaceFace] / [VertexFace] recompute the
    adjacency data inside the buffers; the allocation flags are untouched. *)
Definition UpdateTopology_FaceFace (cm : CMeshO) : CMeshO := cm.
Definition UpdateTopology_VertexFace (cm : CMeshO) : CMeshO := cm.

End Vcg.

Import Vcg.

(** ** The [MeshModel] object *)

(** A [QImage]: the null image of [QImage()] or some pixel data. *)
Inductive QImage :=
| QImageNull
| QImageData (pixels : list Z).

Record MeshModel := mkMeshModel {
  _id : Z;
  fullPathFileName : string;
  _label : string;
  visible : bool;
  modified : bool;
  currentDataMask : Z;
  cm : CMeshO;
  textures_map : gmap string QImage  (* the member [textures] *)
}.

Definition set_cm (m : MeshModel) (c : CMeshO) : MeshModel :=
  mkMeshModel (_id m) (fullPathFileName m) (_label m) (visible m)
    (modified m) (currentDataMask m) c (textures_map m).
Definition set_mask (m : MeshModel) (k : Z) : MeshModel :=
  mkMeshModel (_id m) (fullPathFileName m) (_label m) (visible m)
    (modified m) k (cm m) (textures_map m).
Definition set_textures_map (m : MeshModel) (t : gmap string QImage) : MeshModel :=
  mkMeshModel (_id m) (fullPathFileName m) (_label m) (visible m)
    (modified m) (currentDataMask m) (cm m) t.

(** [setMeshModified(b)] *)
Definition setMeshModified (b : bool) (m : MeshModel) : MeshModel :=
  mkMeshModel (_id m) (fullPathFileName m) (_label m) (visible m)
    b (currentDataMask m) (cm m) (textures_map m).

Definition meshModified (m : MeshModel) : bool := modified m.
Definition dataMask (m : MeshModel) : Z := currentDataMask m.

(** [MeshModel::clear()] *)
Definition clear (m0 : MeshModel) : MeshModel :=
  let m := setMeshModified false m0 in
  let mask := MM_NONE in
  let mask := Z.lor mask (Z.lor (Z.lor MM_VERTCOORD MM_VERTNORMAL) MM_VERTFLAG) in
  let mask := Z.lor mask (Z.lor (Z.lor MM_FACEVERT MM_FACENORMAL) MM_FACEFLAG) in
  let c := cm m in
  mkMeshModel (_id m) (fullPathFileName m) (_label m) true (modified m) mask
    (mkCMeshO (vert c) (face c) Identity44 0 0 (Vcg.textures c))
    (textures_map m).

(** [MeshModel(id, fullFileName, labelName)], on a default-constructed
    [CMeshO] (no optional component, no texture) and an empty map. *)
Definition MeshModel_new (id : Z) (fullFileName labelName : string) : MeshModel :=
  let m := mkMeshModel 0 EmptyString EmptyString true false MM_NONE
             (mkCMeshO vert_none face_none Identity44 0 0 []) ∅ in
  let m := clear m in
  mkMeshModel id
    (if String.eqb fullFileName EmptyString then fullPathFileName m else fullFileName)
    (if String.eqb labelName EmptyString then _label m else labelName)
    (visible m) (modified m) (currentDataMask m) (cm m) (textures_map m).

(** ** DATAMASK STUFF *)

(** [hasDataMask(maskToBeTested)] (const) *)
Definition hasDataMask (m : MeshModel) (maskToBeTested : Z) : bool :=
  negb (Z.land (currentDataMask m) maskToBeTested =? 0).

Definition hasPerVertexColor (m : MeshModel) : bool :=
  int_to_bool (Z.land (currentDataMask m) MM_VERTCOLOR).
Definition hasPerVertexQuality (m : MeshModel) : bool :=
  int_to_bool (Z.land (currentDataMask m) MM_VERTQUALITY).
Definition hasPerVertexTexCoord (m : MeshModel) : bool :=
  int_to_bool (Z.land (currentDataMask m) MM_VERTTEXCOORD).
Definition hasPerFaceColor (m : MeshModel) : bool :=
  int_to_bool (Z.land (currentDataMask m) MM_FACECOLOR).
Definition hasPerFaceQuality (m : MeshModel) : bool :=
  int_to_bool (Z.land (currentDataMask m) MM_FACEQUALITY).
Definition hasPerFaceWedgeTexCoords (m : MeshModel) : bool :=
  int_to_bool (Z.land (currentDataMask m) MM_WEDGTEXCOORD).

(** [if (cond) mask |= bit;] *)
Definition or_if (cond : bool) (bit mask : Z) : Z :=
  if cond then Z.lor mask bit else mask.

(** [MeshModel::updateDataMask()]: recompute the mask from the mesh. *)
Definition updateDataMask_sync (m : MeshModel) : MeshModel :=
  let v := vert (cm m) in
  let f := face (cm m) in
  let mask := MM_NONE in
  let mask := Z.lor mask (Z.lor (Z.lor (Z.lor (Z.lor MM_VERTCOORD MM_VERTNORMAL)
                 MM_VERTFLAG) MM_VERTQUALITY) MM_VERTCOLOR) in
  let mask := Z.lor mask (Z.lor (Z.lor MM_FACEVERT MM_FACENORMAL) MM_FACEFLAG) in
  let mask := or_if (VFAdjacency v) MM_VERTFACETOPO mask in
  let mask := or_if (VMark v) MM_VERTMARK mask in
  let mask := or_if (VTexCoord v) MM_VERTTEXCOORD mask in
  let mask := or_if (VCurvatureDir v) MM_VERTCURVDIR mask in
  let mask := or_if (VRadius v) MM_VERTRADIUS mask in
  let mask := or_if (FQuality f) MM_FACEQUALITY mask in
  let mask := or_if (FMark f) MM_FACEMARK mask in
  let mask := or_if (FColor f) MM_FACECOLOR mask in
  let mask := or_if (FFAdjacency f) MM_FACEFACETOPO mask in
  let mask := or_if (FVFAdjacency f) MM_VERTFACETOPO mask in
  let mask := or_if (FCurvatureDir f) MM_FACECURVDIR mask in
  let mask := or_if (FWedgeTexCoord f) MM_WEDGTEXCOORD mask in
  set_mask m mask.

(** [if ((neededDataMask & bit) != 0) action;] *)
Definition do_if (needed bit : Z) (act : CMeshO -> CMeshO) (c : CMeshO) : CMeshO :=
  if negb (Z.land needed bit =? 0) then act c else c.

(** [MeshModel::updateDataMask(int neededDataMask)] *)
Definition updateDataMask (neededDataMask : Z) (m : MeshModel) : MeshModel :=
  let n := neededDataMask in
  let c := cm m in
  let c := do_if n MM_FACEFACETOPO
             (fun c => UpdateTopology_FaceFace (face_EnableFFAdjacency c)) c in
  let c := do_if n MM_VERTFACETOPO
             (fun c => UpdateTopology_VertexFace
                         (face_EnableVFAdjacency (vert_EnableVFAdjacency c))) c in
  let c := do_if n MM_WEDGTEXCOORD face_EnableWedgeTexCoord c in
  let c := do_if n MM_FACECOLOR face_EnableColor c in
  let c := do_if n MM_FACEQUALITY face_EnableQuality c in
  let c := do_if n MM_FACECURVDIR face_EnableCurvatureDir c in
  let c := do_if n MM_FACEMARK face_EnableMark c in
  let c := do_if n MM_VERTMARK vert_EnableMark c in
  let c := do_if n MM_VERTCURVDIR vert_EnableCurvatureDir c in
  let c := do_if n MM_VERTRADIUS vert_EnableRadius c in
  let c := do_if n MM_VERTTEXCOORD vert_EnableTexCoord c in
  set_mask (set_cm m c) (Z.lor (currentDataMask m) n).

(** [MeshModel::updateDataMask(const MeshModel* m)] *)
Definition updateDataMask_from (other : MeshModel) (m : MeshModel) : MeshModel :=
  updateDataMask (currentDataMask other) m.

(** [if (((unneededDataMask & bit) != 0) && hasDataMask(bit)) action;]:
    [hasDataMask] reads the mask as it was on entry, since the mask is
    only written on the last line of [clearDataMask]. *)
Definition undo_if (m : MeshModel) (unneeded bit : Z) (act : CMeshO -> CMeshO)
    (c : CMeshO) : CMeshO :=
  if negb (Z.land unneeded bit =? 0) && hasDataMask m bit then act c else c.

(** [MeshModel::clearDataMask(int unneededDataMask)] *)
Definition clearDataMask (unneededDataMask : Z) (m : MeshModel) : MeshModel :=
  let u := unneededDataMask in
  let c := cm m in
  let c := undo_if m u MM_VERTFACETOPO
             (fun c => vert_DisableVFAdjacency (face_DisableVFAdjacency c)) c in
  let c := undo_if m u MM_FACEFACETOPO face_DisableFFAdjacency c in
  let c := undo_if m u MM_WEDGTEXCOORD face_DisableWedgeTexCoord c in
  let c := undo_if m u MM_FACECOLOR face_DisableColor c in
  let c := undo_if m u MM_FACEQUALITY face_DisableQuality c in
  let c := undo_if m u MM_FACEMARK face_DisableMark c in
  let c := undo_if m u MM_VERTMARK vert_DisableMark c in
  let c := undo_if m u MM_VERTCURV vert_DisableCurvature c in
  let c := undo_if m u MM_VERTCURVDIR vert_DisableCurvatureDir c in
  let c := undo_if m u MM_VERTRADIUS vert_DisableRadius c in
  let c := undo_if m u MM_VERTTEXCOORD vert_DisableTexCoord c in
  set_mask (set_cm m c) (Z.land (currentDataMask m) (Z.lnot u)).

(** [if (openingFileMask & iobit) updateDataMask(mmbit);] *)
Definition enable_if (opening iobit mmbit : Z) (m : MeshModel) : MeshModel :=
  if int_to_bool (Z.land opening iobit) then updateDataMask mmbit m else m.

(** [MeshModel::enable(int openingFileMask)] *)
Definition enable (openingFileMask : Z) (m : MeshModel) : MeshModel :=
  let o := openingFileMask in
  let m := enable_if o IOM_VERTTEXCOORD MM_VERTTEXCOORD m in
  let m := enable_if o IOM_WEDGTEXCOORD MM_WEDGTEXCOORD m in
  let m := enable_if o IOM_VERTCOLOR MM_VERTCOLOR m in
  let m := enable_if o IOM_FACECOLOR MM_FACECOLOR m in
  let m := enable_if o IOM_VERTRADIUS MM_VERTRADIUS m in
  let m := enable_if o IOM_CAMERA MM_CAMERA m in
  let m := enable_if o IOM_VERTQUALITY MM_VERTQUALITY m in
  let m := enable_if o IOM_FACEQUALITY MM_FACEQUALITY m in
  let m := enable_if o IOM_BITPOLYGONAL MM_POLYGONAL m in
  m.

(** ** [MeshModel::io2mm] *)

(** The result of the switch: a mapped bit, or the [default:] branch,
    where [assert(0)] fires (a debug build aborts there). *)
Inductive Io2mmResult :=
| Mapped (mm : Z)
| AssertFailed.

(** [MeshModel::io2mm(int single_iobit)]: the [switch], case by case. *)
Definition io2mm (single_iobit : Z) : Io2mmResult :=
  let x := single_iobit in
  if x =? IOM_NONE then Mapped MM_NONE
  else if x =? IOM_VERTCOORD then Mapped MM_VERTCOORD
  else if x =? IOM_VERTCOLOR then Mapped MM_VERTCOLOR
  else if x =? IOM_VERTFLAGS then Mapped MM_VERTFLAG
  else if x =? IOM_VERTQUALITY then Mapped MM_VERTQUALITY
  else if x =? IOM_VERTNORMAL then Mapped MM_VERTNORMAL
  else if x =? IOM_VERTTEXCOORD then Mapped MM_VERTTEXCOORD
  else if x =? IOM_VERTRADIUS then Mapped MM_VERTRADIUS
  else if x =? IOM_FACEINDEX then Mapped MM_FACEVERT
  else if x =? IOM_FACEFLAGS then Mapped MM_FACEFLAG
  else if x =? IOM_FACECOLOR then Mapped MM_FACECOLOR
  else if x =? IOM_FACEQUALITY then Mapped MM_FACEQUALITY
  else if x =? IOM_FACENORMAL then Mapped MM_FACENORMAL
  else if x =? IOM_WEDGTEXCOORD then Mapped MM_WEDGTEXCOORD
  else if x =? IOM_WEDGCOLOR then Mapped MM_WEDGCOLOR
  else if x =? IOM_WEDGNORMAL then Mapped MM_WEDGNORMAL
  else if x =? IOM_BITPOLYGONAL then Mapped MM_POLYGONAL
  else AssertFailed.

(** In a release build the [default:] branch returns [MM_NONE]. *)
Definition io2mm_release (single_iobit : Z) : Z :=
  match io2mm single_iobit with Mapped mm => mm | AssertFailed => MM_NONE end.

(** The case labels of the switch with the bit each one returns. *)
Definition io2mm_cases : list (Z * Z) :=
  [ (IOM_NONE, MM_NONE); (IOM_VERTCOORD, MM_VERTCOORD);
    (IOM_VERTCOLOR, MM_VERTCOLOR); (IOM_VERTFLAGS, MM_VERTFLAG);
    (IOM_VERTQUALITY, MM_VERTQUALITY); (IOM_VERTNORMAL, MM_VERTNORMAL);
    (IOM_VERTTEXCOORD, MM_VERTTEXCOORD); (IOM_VERTRADIUS, MM_VERTRADIUS);
    (IOM_FACEINDEX, MM_FACEVERT); (IOM_FACEFLAGS, MM_FACEFLAG);
    (IOM_FACECOLOR, MM_FACECOLOR); (IOM_FACEQUALITY, MM_FACEQUALITY);
    (IOM_FACENORMAL, MM_FACENORMAL); (IOM_WEDGTEXCOORD, MM_WEDGTEXCOORD);
    (IOM_WEDGCOLOR, MM_WEDGCOLOR); (IOM_WEDGNORMAL, MM_WEDGNORMAL);
    (IOM_BITPOLYGONAL, MM_POLYGONAL) ].

(** ** Textures *)

(** [getTexture(tn)] (const) *)
Definition getTexture (m : MeshModel) (tn : string) : QImage :=
  match textures_map m !! tn with
  | Some img => img
  | None => QImageNull
  end.

(** [setTexture(name, txt)] *)
Definition setTexture (name : string) (txt : QImage) (m : MeshModel) : MeshModel :=
  match textures_map m !! name with
  | Some _ => set_textures_map m (<[name := txt]> (textures_map m))
  | None => m
  end.

(** [std::find] on a list of names: the index of the first occurrence. *)
Fixpoint find_index (x : string) (l : list string) : option nat :=
  match l with
  | [] => None
  | y :: l' =>
      if String.eqb y x then Some 0%nat
      else match find_index x l' with Some i => Some (S i) | None => None end
  end.

(** [addTexture(name, txt)] *)
Definition addTexture (name : string) (txt : QImage) (m : MeshModel) : MeshModel :=
  match textures_map m !! name with
  | None =>
      let l := Vcg.textures (cm m) in
      let l := match find_index name l with None => l ++ [name] | Some _ => l end in
      set_textures_map (set_cm m (set_textures (cm m) l))
        (<[name := txt]> (textures_map m))
  | Some _ => m
  end.

(** [changeTextureName(oldName, newName)]: [*tit = newName], then
    [textures[newName] = mit->second] and [textures.erase(mit)]. *)
Definition changeTextureName (oldName newName : string) (m : MeshModel) : MeshModel :=
  if negb (String.eqb oldName newName) then
    match textures_map m !! oldName, find_index oldName (Vcg.textures (cm m)) with
    | Some img, Some i =>
        let l := <[i := newName]> (Vcg.textures (cm m)) in
        let t := <[newName := img]> (textures_map m) in
        set_textures_map (set_cm m (set_textures (cm m) l)) (delete oldName t)
    | _, _ => m
    end
  else m.

(** Modelled from the spec: [fullName()] is declared in mesh_model.h, which
    is not part of the sources; it returns the file path the model keeps. *)
Definition fullName (m : MeshModel) : string := fullPathFileName m.

Section LoadTextures.

(** [meshlab::loadImage(path, log, cb)]: [Some] image, or [None] when it
    throws [MLException]. *)
Variable loadImage : string -> option QImage.
(** [QFileInfo(textName)]: [absoluteFilePath()], [fileName()], [filePath()]. *)
Variable absoluteFilePath fileName filePath : string -> string.
(** [QFileInfo(path).absolutePath()] *)
Variable absolutePath : string -> string.
(** [QImage(":/img/dummy.png")] *)
Variable dummy_png : QImage.

(** One pass of the loop body on [textName]: the new map, the new list of
    unloaded names and the new value written into [textName]. *)
Definition loadTexture_step (m : MeshModel) (textures : gmap string QImage)
    (unloadedTextures : list string) (textName : string)
    : gmap string QImage * list string * string :=
  match textures !! textName with
  | Some _ => (textures, unloadedTextures, textName)
  | None =>
      match loadImage (absoluteFilePath textName) with
      | Some img =>
          let textName' := fileName textName in
          (<[textName' := img]> textures, unloadedTextures, textName')
      | None =>
          let fn2 := (absolutePath (fullName m) ++ "/" ++ filePath textName)%string in
          match loadImage fn2 with
          | Some img =>
              let textName' := filePath textName in
              (<[textName' := img]> textures, unloadedTextures, textName')
          | None =>
              let textName' := "dummy.png"%string in
              (<[textName' := dummy_png]> textures,
               unloadedTextures ++ [textName], textName')
          end
      end
  end.

(** [for (std::string& textName : cm.textures)], writing each [textName]
    back in place. *)
Fixpoint loadTextures_loop (m : MeshModel) (textures : gmap string QImage)
    (unloadedTextures : list string) (names : list string)
    : gmap string QImage * list string * list string :=
  match names with
  | [] => (textures, unloadedTextures, [])
  | textName :: rest =>
      let '(t, u, textName') := loadTexture_step m textures unloadedTextures textName in
      let '(t', u', rest') := loadTextures_loop m t u rest in
      (t', u', textName' :: rest')
  end.

(** [MeshModel::loadTextures(log, cb)]: the returned list and the model. *)
Definition loadTextures (m : MeshModel) : list string * MeshModel :=
  let '(t, u, names) := loadTextures_loop m (textures_map m) [] (Vcg.textures (cm m)) in
  (u, set_textures_map (set_cm m (set_textures (cm m) names)) t).

(** The two-level fallback in the words of the spec: a name already in the
    map is skipped; otherwise an image loaded from the absolute path, or
    else from the model's directory, is stored (under some key, the name
    becoming some name); only when both fail is the dummy image stored under
    ["dummy.png"], the name replaced by ["dummy.png"] and the original name
    reported. *)
Inductive LoadSpec (dir : string) :
    gmap string QImage -> list string -> list string -> gmap string QImage ->
    list string -> Prop :=
| LoadSpec_nil t : LoadSpec dir t [] [] t []
| LoadSpec_skip t n l l' t' u :
    is_Some (t !! n) -> LoadSpec dir t l l' t' u -> LoadSpec dir t (n :: l) (n :: l') t' u
| LoadSpec_first t n img k n' l l' t' u :
    t !! n = None -> loadImage (absoluteFilePath n) = Some img ->
    LoadSpec dir (<[k := img]> t) l l' t' u -> LoadSpec dir t (n :: l) (n' :: l') t' u
| LoadSpec_second t n img k n' l l' t' u :
    t !! n = None -> loadImage (absoluteFilePath n) = None ->
    loadImage (dir ++ "/" ++ filePath n)%string = Some img ->
    LoadSpec dir (<[k := img]> t) l l' t' u -> LoadSpec dir t (n :: l) (n' :: l') t' u
| LoadSpec_dummy t n l l' t' u :
    t !! n = None -> loadImage (absoluteFilePath n) = None ->
    loadImage (dir ++ "/" ++ filePath n)%string = None ->
    LoadSpec dir (<["dummy.png"%string := dummy_png]> t) l l' t' u ->
    LoadSpec dir t (n :: l) ("dummy.png"%string :: l') t' (n :: u).

End LoadTextures.

(** [clearTextures()] *)
Definition clearTextures (m : MeshModel) : MeshModel :=
  set_textures_map (set_cm m (set_textures (cm m) [])) ∅.

(** Every name of the mesh's texture list is a key of the map. *)
Definition textures_consistent (m : MeshModel) : bool :=
  forallb (fun n => match textures_map m !! n with Some _ => true | None => false end)
    (Vcg.textures (cm m)).

(** How [saveTextures] stops early: [textures.at(tname)] throws
    [std::out_of_range], or [meshlab::saveImage] throws [MLException]. *)
Inductive SaveError :=
| OutOfRange (name : string)
| SaveFailed (path : string).

Section SaveTextures.

(** [meshlab::saveImage(path, img, quality, log, cb)]: [false] when it throws. *)
Variable saveImage : string -> QImage -> bool.

(** The loop of [saveTextures]: the files written, in order, and the
    exception that ended it, if any. *)
Fixpoint saveTextures_loop (basePath : string) (textures : gmap string QImage)
    (names : list string) : list (string * QImage) * option SaveError :=
  match names with
  | [] => ([], None)
  | tname :: rest =>
      match textures !! tname with
      | None => ([], Some (OutOfRange tname))
      | Some img =>
          let path := (basePath ++ "/" ++ tname)%string in
          if saveImage path img then
            let '(w, e) := saveTextures_loop basePath textures rest in
            ((path, img) :: w, e)
          else ([], Some (SaveFailed path))
      end
  end.

(** [saveTextures(basePath, quality, log, cb)]; the model is not changed. *)
Definition saveTextures (basePath : string) (m : MeshModel)
    : list (string * QImage) * option SaveError :=
  saveTextures_loop basePath (textures_map m) (Vcg.textures (cm m)).

End SaveTextures.

(** The IO bits [enable] translates. *)
Definition enable_iobits : list Z :=
  [IOM_VERTTEXCOORD; IOM_WEDGTEXCOORD; IOM_VERTCOLOR; IOM_FACECOLOR; IOM_VERTRADIUS;
   IOM_CAMERA; IOM_VERTQUALITY; IOM_FACEQUALITY; IOM_BITPOLYGONAL].

(** The parts of a model the data-mask operations leave alone. *)
Definition frame_of (m : MeshModel) :=
  (textures_map m, Vcg.textures (cm m), _id m, fullPathFileName m, _label m).

(** ** Which bit mirrors which optional buffer *)

(** The bit index of each optional attribute together with the allocation
    flag of its buffer; [MM_VERTFACETOPO] stands for two buffers, the
    vertex and the face VF adjacency, which the code always switches
    together. *)
Definition optional_buffers : list (Z * (CMeshO -> bool)) :=
  [ (10, fun c => VTexCoord (vert c));        (* MM_VERTTEXCOORD *)
    (9,  fun c => VRadius (vert c));          (* MM_VERTRADIUS *)
    (5,  fun c => VMark (vert c));            (* MM_VERTMARK *)
    (8,  fun c => VCurvatureDir (vert c));    (* MM_VERTCURVDIR *)
    (15, fun c => FColor (face c));           (* MM_FACECOLOR *)
    (16, fun c => FQuality (face c));         (* MM_FACEQUALITY *)
    (17, fun c => FMark (face c));            (* MM_FACEMARK *)
    (20, fun c => FCurvatureDir (face c));    (* MM_FACECURVDIR *)
    (21, fun c => FWedgeTexCoord (face c));   (* MM_WEDGTEXCOORD *)
    (6,  fun c => VFAdjacency (vert c));      (* MM_VERTFACETOPO, vertex side *)
    (6,  fun c => FVFAdjacency (face c));     (* MM_VERTFACETOPO, face side *)
    (18, fun c => FFAdjacency (face c)) ].    (* MM_FACEFACETOPO *)

(** The same table without [MM_FACECURVDIR], the one optional bit that
    [clearDataMask] has no line for. *)
Definition optional_buffers_but_facecurvdir : list (Z * (CMeshO -> bool)) :=
  List.filter (fun p => negb (fst p =? 20)) optional_buffers.

(** Every listed bit is set in the mask iff its buffer is allocated. *)
Definition mirrors_on (bs : list (Z * (CMeshO -> bool))) (m : MeshModel) : bool :=
  forallb (fun p => Bool.eqb (hasDataMask m (Z.shiftl 1 (fst p))) (snd p (cm m))) bs.

Definition mirrors (m : MeshModel) : bool := mirrors_on optional_buffers m.

(** ** Bit lemmas *)

Lemma land_single_bit (x k : Z) :
  0 <= k -> (Z.land x (Z.shiftl 1 k) =? 0) = negb (Z.testbit x k).
Proof.
  intros Hk. rewrite Z.shiftl_1_l.
  destruct (Z.testbit x k) eqn:E; simpl.
  - apply Z.eqb_neq. intros H0.
    assert (Z.testbit (Z.land x (2 ^ k)) k = true) as T.
    { rewrite Z.land_spec, E, Z.pow2_bits_true; auto. }
    rewrite H0, Z.bits_0 in T. discriminate.
  - apply Z.eqb_eq. apply Z.bits_inj'. intros i Hi.
    rewrite Z.land_spec, Z.bits_0, Z.pow2_bits_eqb by lia.
    destruct (Z.eqb_spec k i); subst; [rewrite E|]; btauto.
Qed.

Lemma hasDataMask_bit (m : MeshModel) (k : Z) :
  0 <= k -> hasDataMask m (Z.shiftl 1 k) = Z.testbit (currentDataMask m) k.
Proof. intros Hk. unfold hasDataMask. rewrite land_single_bit by exact Hk. apply negb_involutive. Qed.

Lemma if_same_bool (b x : bool) : (if b then x else x) = x.
Proof. destruct b; reflexivity. Qed.

Lemma vert_do_if (P : VertexOcf -> bool) n b act c :
  P (vert (do_if n b act c)) =
  if negb (Z.land n b =? 0) then P (vert (act c)) else P (vert c).
Proof. unfold do_if. destruct (negb _); reflexivity. Qed.

Lemma face_do_if (P : FaceOcf -> bool) n b act c :
  P (face (do_if n b act c)) =
  if negb (Z.land n b =? 0) then P (face (act c)) else P (face c).
Proof. unfold do_if. destruct (negb _); reflexivity. Qed.

Lemma vert_undo_if (P : VertexOcf -> bool) m u b act c :
  P (vert (undo_if m u b act c)) =
  if negb (Z.land u b =? 0) && hasDataMask m b then P (vert (act c)) else P (vert c).
Proof. unfold undo_if. destruct (_ && _); reflexivity. Qed.

Lemma face_undo_if (P : FaceOcf -> bool) m u b act c :
  P (face (undo_if m u b act c)) =
  if negb (Z.land u b =? 0) && hasDataMask m b then P (face (act c)) else P (face c).
Proof. unfold undo_if. destruct (_ && _); reflexivity. Qed.

(** Push one flag projection through a chain of guarded enables/disables,
    from the outermost guard inwards. *)
Ltac ocf_step :=
  first [ rewrite vert_do_if | rewrite face_do_if
        | rewrite vert_undo_if | rewrite face_undo_if ];
  cbn [vert face set_vert set_face vert_with face_with keep on off
    VFAdjacency VMark VTexCoord VCurvature VCurvatureDir VRadius
    FFAdjacency FVFAdjacency FQuality FMark FColor FCurvatureDir FWedgeTexCoord
    vert_EnableVFAdjacency vert_EnableMark vert_EnableTexCoord
    vert_EnableCurvatureDir vert_EnableRadius vert_DisableVFAdjacency
    vert_DisableMark vert_DisableTexCoord vert_DisableCurvature
    vert_DisableCurvatureDir vert_DisableRadius
    face_EnableFFAdjacency face_EnableVFAdjacency face_EnableQuality
    face_EnableMark face_EnableColor face_EnableCurvatureDir
    face_EnableWedgeTexCoord face_DisableFFAdjacency face_DisableVFAdjacency
    face_DisableQuality face_DisableMark face_DisableColor
    face_DisableWedgeTexCoord UpdateTopology_FaceFace UpdateTopology_VertexFace];
  rewrite ?if_same_bool.

Ltac mm_bits :=
  unfold MM_FACEFACETOPO, MM_VERTFACETOPO, MM_WEDGTEXCOORD, MM_FACECOLOR,
    MM_FACEQUALITY, MM_FACECURVDIR, MM_FACEMARK, MM_VERTMARK, MM_VERTCURV,
    MM_VERTCURVDIR, MM_VERTRADIUS, MM_VERTTEXCOORD in *.

Lemma optional_buffers_nonneg (p : Z * (CMeshO -> bool)) :
  In p optional_buffers -> 0 <= fst p.
Proof. simpl. intros H. repeat destruct H as [<- | H]; simpl; lia || contradiction. Qed.

Lemma but_facecurvdir_incl (p : Z * (CMeshO -> bool)) :
  In p optional_buffers_but_facecurvdir -> In p optional_buffers /\ fst p <> 20.
Proof.
  unfold optional_buffers_but_facecurvdir. rewrite filter_In.
  intros [H1 H2]. split; [exact H1|]. apply negb_true_iff, Z.eqb_neq in H2. exact H2.
Qed.

Lemma mirrors_on_iff (bs : list (Z * (CMeshO -> bool))) (m : MeshModel) :
  (forall p, In p bs -> 0 <= fst p) ->
  mirrors_on bs m = true <->
  (forall p, In p bs -> Z.testbit (currentDataMask m) (fst p) = snd p (cm m)).
Proof.
  intros Hnn. unfold mirrors_on. rewrite forallb_forall.
  split; intros H p Hp; specialize (H p Hp).
  - apply Bool.eqb_prop in H. rewrite hasDataMask_bit in H by (apply Hnn; exact Hp). exact H.
  - rewrite hasDataMask_bit by (apply Hnn; exact Hp). rewrite H. apply eqb_reflx.
Qed.

(** Split [In p optional_buffers] into its twelve entries. *)
Ltac case_buffers H :=
  simpl in H; repeat destruct H as [<- | H]; [..| contradiction].

Ltac ocf_close :=
  mm_bits; rewrite ?land_single_bit, ?hasDataMask_bit by lia;
  rewrite ?negb_involutive.

(** [updateDataMask(n)] sets each listed buffer flag to [old || bit of n]. *)
Lemma updateDataMask_buffer (n : Z) (m : MeshModel) (p : Z * (CMeshO -> bool)) :
  In p optional_buffers ->
  snd p (cm (updateDataMask n m)) = Z.testbit n (fst p) || snd p (cm m).
Proof.
  intros H. case_buffers H; cbn [fst snd];
    unfold updateDataMask; cbn [cm set_mask set_cm];
    repeat ocf_step; ocf_close; reflexivity.
Qed.

Lemma updateDataMask_mask (n : Z) (m : MeshModel) :
  currentDataMask (updateDataMask n m) = Z.lor (currentDataMask m) n.
Proof. reflexivity. Qed.

(** [clearDataMask(u)] clears each listed buffer flag other than the face
    curvature direction when its bit is in [u] and set in the mask. *)
Lemma clearDataMask_buffer (u : Z) (m : MeshModel) (p : Z * (CMeshO -> bool)) :
  In p optional_buffers_but_facecurvdir ->
  snd p (cm (clearDataMask u m)) =
  negb (Z.testbit u (fst p) && Z.testbit (currentDataMask m) (fst p)) && snd p (cm m).
Proof.
  intros H. apply but_facecurvdir_incl in H as [H Hne].
  case_buffers H; cbn [fst snd] in *; try (exfalso; apply Hne; reflexivity);
    unfold clearDataMask; cbn [cm set_mask set_cm];
    repeat ocf_step; ocf_close;
    match goal with |- context [if ?b then _ else _] => destruct b end; reflexivity.
Qed.

Lemma clearDataMask_mask (u : Z) (m : MeshModel) :
  currentDataMask (clearDataMask u m) = Z.land (currentDataMask m) (Z.lnot u).
Proof. reflexivity. Qed.

Lemma testbit_or_if (c : bool) (bit mask k : Z) :
  Z.testbit (or_if c bit mask) k = Z.testbit mask k || (c && Z.testbit bit k).
Proof.
  unfold or_if. destruct c; simpl.
  - apply Z.lor_spec.
  - rewrite orb_false_r. reflexivity.
Qed.

(** [updateDataMask()] reads each listed bit off the buffers; the one bit
    [MM_VERTFACETOPO] is read off both VF adjacency buffers. *)
Lemma updateDataMask_sync_bit (m : MeshModel) (p : Z * (CMeshO -> bool)) :
  In p optional_buffers ->
  VFAdjacency (vert (cm m)) = FVFAdjacency (face (cm m)) ->
  Z.testbit (currentDataMask (updateDataMask_sync m)) (fst p) = snd p (cm m).
Proof.
  intros H Hvf. unfold updateDataMask_sync. cbn [currentDataMask set_mask].
  rewrite !testbit_or_if, !Z.lor_spec.
  unfold MM_NONE, MM_VERTCOORD, MM_VERTNORMAL, MM_VERTFLAG, MM_VERTQUALITY,
    MM_VERTCOLOR, MM_FACEVERT, MM_FACENORMAL, MM_FACEFLAG; mm_bits.
  assert (0 <= fst p) as Hk by (apply optional_buffers_nonneg, H).
  rewrite !Z.shiftl_1_l, !Z.pow2_bits_eqb, Z.bits_0 by (lia || exact Hk).
  case_buffers H; cbn [fst snd Z.eqb Pos.eqb];
    rewrite ?andb_false_r, ?andb_true_r, ?orb_false_r, ?orb_false_l;
    destruct (VFAdjacency (vert (cm m))), (FVFAdjacency (face (cm m)));
    try discriminate; reflexivity.
Qed.

Lemma updateDataMask_sync_cm (m : MeshModel) : cm (updateDataMask_sync m) = cm m.
Proof. reflexivity. Qed.

(** ** The public operations on the data mask *)

Inductive PublicOp :=
| OpClear                                  (* clear() *)
| OpUpdateDataMaskSync                     (* updateDataMask() *)
| OpUpdateDataMask (neededDataMask : Z)    (* updateDataMask(int) *)
| OpUpdateDataMaskFrom (other : MeshModel) (* updateDataMask(const MeshModel* ) *)
| OpClearDataMask (unneededDataMask : Z)   (* clearDataMask(int) *)
| OpEnable (openingFileMask : Z).          (* enable(int) *)

Definition apply_op (op : PublicOp) (m : MeshModel) : MeshModel :=
  match op with
  | OpClear => clear m
  | OpUpdateDataMaskSync => updateDataMask_sync m
  | OpUpdateDataMask n => updateDataMask n m
  | OpUpdateDataMaskFrom o => updateDataMask_from o m
  | OpClearDataMask u => clearDataMask u m
  | OpEnable o => enable o m
  end.

Definition run (ops : list PublicOp) (m : MeshModel) : MeshModel :=
  fold_left (fun m op => apply_op op m) ops m.

Definition is_clear (op : PublicOp) : bool :=
  match op with OpClear => true | _ => false end.

(** ** Preservation of the mirroring, one entry at a time *)

Lemma mirror_point_updateDataMask (n : Z) (m : MeshModel) (p : Z * (CMeshO -> bool)) :
  In p optional_buffers ->
  Z.testbit (currentDataMask m) (fst p) = snd p (cm m) ->
  Z.testbit (currentDataMask (updateDataMask n m)) (fst p) = snd p (cm (updateDataMask n m)).
Proof.
  intros Hin Hp. rewrite updateDataMask_buffer by exact Hin.
  rewrite updateDataMask_mask, Z.lor_spec, Hp. apply orb_comm.
Qed.

Lemma mirror_point_enable_if (o iobit mmbit : Z) (m : MeshModel) (p : Z * (CMeshO -> bool)) :
  In p optional_buffers ->
  Z.testbit (currentDataMask m) (fst p) = snd p (cm m) ->
  Z.testbit (currentDataMask (enable_if o iobit mmbit m)) (fst p) =
  snd p (cm (enable_if o iobit mmbit m)).
Proof.
  intros Hin Hp. unfold enable_if. destruct (int_to_bool _); [|exact Hp].
  apply mirror_point_updateDataMask; assumption.
Qed.

Lemma mirror_point_enable (o : Z) (m : MeshModel) (p : Z * (CMeshO -> bool)) :
  In p optional_buffers ->
  Z.testbit (currentDataMask m) (fst p) = snd p (cm m) ->
  Z.testbit (currentDataMask (enable o m)) (fst p) = snd p (cm (enable o m)).
Proof.
  intros Hin Hp. unfold enable. cbv zeta.
  repeat (apply mirror_point_enable_if; [exact Hin|]). exact Hp.
Qed.

Lemma mirror_point_clearDataMask (u : Z) (m : MeshModel) (p : Z * (CMeshO -> bool)) :
  In p optional_buffers_but_facecurvdir ->
  Z.testbit (currentDataMask m) (fst p) = snd p (cm m) ->
  Z.testbit (currentDataMask (clearDataMask u m)) (fst p) = snd p (cm (clearDataMask u m)).
Proof.
  intros Hin Hp. rewrite clearDataMask_buffer by exact Hin.
  assert (0 <= fst p) as Hk
    by (apply optional_buffers_nonneg, but_facecurvdir_incl; exact Hin).
  rewrite clearDataMask_mask, Z.land_spec, Z.lnot_spec by exact Hk.
  rewrite <- Hp. destruct (Z.testbit u (fst p)), (Z.testbit (currentDataMask m) (fst p));
    reflexivity.
Qed.

Lemma but_facecurvdir_nonneg (p : Z * (CMeshO -> bool)) :
  In p optional_buffers_but_facecurvdir -> 0 <= fst p.
Proof. intros H. apply optional_buffers_nonneg, but_facecurvdir_incl, H. Qed.

Lemma mirrors_but_facecurvdir_vf (m : MeshModel) :
  mirrors_on optional_buffers_but_facecurvdir m = true ->
  VFAdjacency (vert (cm m)) = FVFAdjacency (face (cm m)).
Proof.
  intros H. rewrite mirrors_on_iff in H by exact but_facecurvdir_nonneg.
  pose proof (H (6, fun c => VFAdjacency (vert c))) as Hv.
  pose proof (H (6, fun c => FVFAdjacency (face c))) as Hf.
  cbn [fst snd] in Hv, Hf. rewrite <- Hv, <- Hf by (simpl; tauto). reflexivity.
Qed.

Lemma mirror_step (op : PublicOp) (m : MeshModel) :
  is_clear op = false ->
  mirrors_on optional_buffers_but_facecurvdir m = true ->
  mirrors_on optional_buffers_but_facecurvdir (apply_op op m) = true.
Proof.
  intros Hop Hm. pose proof (mirrors_but_facecurvdir_vf m Hm) as Hvf.
  rewrite mirrors_on_iff in Hm by exact but_facecurvdir_nonneg.
  rewrite mirrors_on_iff by exact but_facecurvdir_nonneg. intros p Hp.
  pose proof (but_facecurvdir_incl p Hp) as [Hin _].
  destruct op; cbn [apply_op is_clear] in *; try discriminate.
  - rewrite updateDataMask_sync_cm. apply updateDataMask_sync_bit; assumption.
  - apply mirror_point_updateDataMask; auto.
  - apply mirror_point_updateDataMask; auto.
  - apply mirror_point_clearDataMask; auto.
  - apply mirror_point_enable; auto.
Qed.

Lemma mirror_run (ops : list PublicOp) (m : MeshModel) :
  forallb (fun op => negb (is_clear op)) ops = true ->
  mirrors_on optional_buffers_but_facecurvdir m = true ->
  mirrors_on optional_buffers_but_facecurvdir (run ops m) = true.
Proof.
  unfold run. revert m. induction ops as [|op ops IH]; intros m Hops Hm; [exact Hm|].
  cbn [forallb fold_left] in *. apply andb_true_iff in Hops as [H1 H2].
  apply IH; [exact H2|]. apply mirror_step; [apply negb_true_iff, H1 | exact Hm].
Qed.

Lemma mirrors_restrict (m : MeshModel) :
  mirrors m = true -> mirrors_on optional_buffers_but_facecurvdir m = true.
Proof.
  unfold mirrors, mirrors_on. rewrite !forallb_forall. intros H p Hp.
  apply H, but_facecurvdir_incl, Hp.
Qed.

Lemma MeshModel_new_mirrors (id : Z) (fullFileName labelName : string) :
  mirrors (MeshModel_new id fullFileName labelName) = true.
Proof. reflexivity. Qed.

Lemma clear_mask_listed (m : MeshModel) (p : Z * (CMeshO -> bool)) :
  In p optional_buffers -> Z.testbit (currentDataMask (clear m)) (fst p) = false.
Proof. intros H. case_buffers H; reflexivity. Qed.

Lemma clear_buffers (m : MeshModel) (p : Z * (CMeshO -> bool)) :
  In p optional_buffers -> snd p (cm (clear m)) = snd p (cm m).
Proof. intros H. case_buffers H; reflexivity. Qed.

Lemma clear_mirrors (m : MeshModel) :
  mirrors (clear m) = true <->
  forallb (fun p => negb (snd p (cm m))) optional_buffers = true.
Proof.
  unfold mirrors. rewrite mirrors_on_iff by exact optional_buffers_nonneg.
  rewrite forallb_forall. split; intros H p Hp; specialize (H p Hp).
  - rewrite clear_mask_listed, clear_buffers in H by exact Hp. rewrite <- H. reflexivity.
  - rewrite clear_mask_listed, clear_buffers by exact Hp. apply negb_true_iff in H.
    rewrite H. reflexivity.
Qed.

(** ** Claims on the data mask *)

(** C1 (counterexample): the mask does not mirror the buffers at every
    reachable point.  After [updateDataMask(MM_FACECOLOR)] and [clear()] on a
    new model, the face colour buffer is still allocated while
    [MM_FACECOLOR] is no longer in the mask. *)
Lemma C1_mirroring_fails_after_clear :
  let m := run [OpUpdateDataMask MM_FACECOLOR; OpClear] (MeshModel_new 0 EmptyString EmptyString) in
  hasDataMask m MM_FACECOLOR = false /\ FColor (face (cm m)) = true /\ mirrors m = false.
Proof. vm_compute. repeat split. Qed.

(** C1 (amended): a new model mirrors every listed buffer; every sequence of
    [updateDataMask] (all three overloads), [enable] and [clearDataMask]
    keeps each listed bit other than [MM_FACECURVDIR] set iff its buffer is
    allocated; [updateDataMask()] re-establishes the mirroring of all listed
    bits when the two VF adjacency buffers agree; [clear()] leaves the
    buffers alone, so afterwards the mirroring holds iff no listed buffer
    was allocated. *)
Theorem C1_mirroring_amended :
  (forall id fullFileName labelName,
     mirrors (MeshModel_new id fullFileName labelName) = true) /\
  (forall id fullFileName labelName ops,
     forallb (fun op => negb (is_clear op)) ops = true ->
     mirrors_on optional_buffers_but_facecurvdir
       (run ops (MeshModel_new id fullFileName labelName)) = true) /\
  (forall m ops,
     forallb (fun op => negb (is_clear op)) ops = true ->
     mirrors_on optional_buffers_but_facecurvdir m = true ->
     mirrors_on optional_buffers_but_facecurvdir (run ops m) = true) /\
  (forall m,
     VFAdjacency (vert (cm m)) = FVFAdjacency (face (cm m)) ->
     mirrors (updateDataMask_sync m) = true) /\
  (forall m,
     mirrors (clear m) = true <->
     forallb (fun p => negb (snd p (cm m))) optional_buffers = true).
Proof.
  split; [exact MeshModel_new_mirrors|].
  split.
  { intros id f l ops Hops. apply mirror_run; [exact Hops|].
    apply mirrors_restrict, MeshModel_new_mirrors. }
  split; [intros m ops; apply mirror_run|].
  split; [|exact clear_mirrors].
  intros m Hvf. unfold mirrors.
  rewrite mirrors_on_iff by exact optional_buffers_nonneg.
  intros p Hp. rewrite updateDataMask_sync_cm. apply updateDataMask_sync_bit; assumption.
Qed.

Lemma C1_mirroring_amended_witness :
  forallb (fun op => negb (is_clear op))
    [OpUpdateDataMask MM_FACECURVDIR; OpClearDataMask MM_FACECURVDIR; OpEnable IOM_FACECOLOR] = true /\
  mirrors_on optional_buffers_but_facecurvdir
    (run [OpUpdateDataMask MM_FACECURVDIR; OpClearDataMask MM_FACECURVDIR; OpEnable IOM_FACECOLOR]
       (MeshModel_new 1 EmptyString EmptyString)) = true.
Proof.
  split; [reflexivity|].
  apply (proj1 (proj2 C1_mirroring_amended)). reflexivity.
Defined.

(** C2 (code defect): [updateDataMask(neededDataMask)] ORs
    [neededDataMask] into the mask, so no bit is ever cleared, and allocates
    the buffer of every listed optional bit of [neededDataMask]; but it has no
    line for [MM_VERTCURV]: the vertex curvature buffer, which
    [clearDataMask] releases for that bit, is never allocated, so after
    [updateDataMask(MM_VERTCURV)] the bit is set and the buffer is absent. *)
Theorem C2_updateDataMask_vertcurv_not_enabled (neededDataMask : Z) (m : MeshModel) :
  currentDataMask (updateDataMask neededDataMask m) =
    Z.lor (currentDataMask m) neededDataMask /\
  (forall k, Z.testbit (currentDataMask m) k = true ->
     Z.testbit (currentDataMask (updateDataMask neededDataMask m)) k = true) /\
  (forall p, In p optional_buffers -> Z.testbit neededDataMask (fst p) = true ->
     snd p (cm (updateDataMask neededDataMask m)) = true) /\
  VCurvature (vert (cm (updateDataMask neededDataMask m))) = VCurvature (vert (cm m)) /\
  (let m0 := updateDataMask MM_VERTCURV (MeshModel_new 0 EmptyString EmptyString) in
   hasDataMask m0 MM_VERTCURV = true /\ VCurvature (vert (cm m0)) = false) /\
  (let m1 := set_cm (updateDataMask MM_VERTCURV (MeshModel_new 0 EmptyString EmptyString))
               (set_vert (cm (MeshModel_new 0 EmptyString EmptyString))
                  (vert_with vert_none keep keep keep on keep keep)) in
   VCurvature (vert (cm m1)) = true /\
   VCurvature (vert (cm (clearDataMask MM_VERTCURV m1))) = false).
Proof.
  split; [reflexivity|]. split.
  - intros k Hk. rewrite updateDataMask_mask, Z.lor_spec, Hk. reflexivity.
  - split; [|split; [|split; vm_compute; split; reflexivity]].
    + intros p Hp Hb. rewrite updateDataMask_buffer by exact Hp. rewrite Hb. reflexivity.
    + unfold updateDataMask. cbn [cm set_mask set_cm]. repeat ocf_step. reflexivity.
Qed.

Lemma C2_updateDataMask_vertcurv_not_enabled_witness :
  In (15, fun c => FColor (face c)) optional_buffers /\
  Z.testbit MM_FACECOLOR 15 = true /\
  FColor (face (cm (updateDataMask MM_FACECOLOR (MeshModel_new 0 EmptyString EmptyString)))) = true.
Proof.
  split; [simpl; tauto|]. split; [reflexivity|].
  exact (proj1 (proj2 (proj2 (C2_updateDataMask_vertcurv_not_enabled MM_FACECOLOR
    (MeshModel_new 0 EmptyString EmptyString)))) (15, fun c => FColor (face c))
    (or_intror (or_intror (or_intror (or_intror (or_introl eq_refl))))) eq_refl).
Defined.

(** C3 (code defect): [clearDataMask] has no line for [MM_FACECURVDIR]:
    the bit leaves the mask but the face curvature-direction buffer is never
    released, although [updateDataMask] allocates it for that bit. *)
Theorem C3_clearDataMask_keeps_facecurvdir (unneededDataMask : Z) (m : MeshModel) :
  FCurvatureDir (face (cm (clearDataMask unneededDataMask m))) = FCurvatureDir (face (cm m)) /\
  currentDataMask (clearDataMask unneededDataMask m) =
    Z.land (currentDataMask m) (Z.lnot unneededDataMask) /\
  (let m0 := updateDataMask MM_FACECURVDIR (MeshModel_new 0 EmptyString EmptyString) in
   let m1 := clearDataMask MM_FACECURVDIR m0 in
   hasDataMask m0 MM_FACECURVDIR = true /\ FCurvatureDir (face (cm m0)) = true /\
   hasDataMask m1 MM_FACECURVDIR = false /\ FCurvatureDir (face (cm m1)) = true).
Proof.
  split; [|split; [reflexivity | vm_compute; repeat split]].
  unfold clearDataMask. cbn [cm set_mask set_cm]. repeat ocf_step. reflexivity.
Qed.

(** C4: [hasDataMask] tests for a nonzero intersection with the mask; the
    specialised queries are [hasDataMask] on their single bit.  All are
    const members: functions of the model that return no new model. *)
Theorem C4_hasDataMask_query (m : MeshModel) (maskToBeTested : Z) :
  (hasDataMask m maskToBeTested = true <->
     Z.land (currentDataMask m) maskToBeTested <> 0) /\
  hasPerVertexColor m = hasDataMask m MM_VERTCOLOR /\
  hasPerVertexQuality m = hasDataMask m MM_VERTQUALITY /\
  hasPerVertexTexCoord m = hasDataMask m MM_VERTTEXCOORD /\
  hasPerFaceColor m = hasDataMask m MM_FACECOLOR /\
  hasPerFaceQuality m = hasDataMask m MM_FACEQUALITY /\
  hasPerFaceWedgeTexCoords m = hasDataMask m MM_WEDGTEXCOORD.
Proof.
  split; [|repeat split].
  unfold hasDataMask. rewrite negb_true_iff, Z.eqb_neq. reflexivity.
Qed.

(** The six bits [clear()] sets: the data always active on the mesh. *)
Definition always_active_mask : Z :=
  Z.lor (Z.lor (Z.lor MM_VERTCOORD MM_VERTNORMAL) MM_VERTFLAG)
        (Z.lor (Z.lor MM_FACEVERT MM_FACENORMAL) MM_FACEFLAG).

Lemma updateDataMask_sync_baseline (m : MeshModel) (k : Z) :
  In k [0; 1; 2; 3; 4; 12; 13; 14] ->
  Z.testbit (currentDataMask (updateDataMask_sync m)) k = true.
Proof.
  intros Hk. unfold updateDataMask_sync. cbn [currentDataMask set_mask].
  rewrite !testbit_or_if, !Z.lor_spec.
  simpl in Hk. repeat destruct Hk as [<- | Hk]; [..|contradiction];
    cbn -[VFAdjacency VMark VTexCoord VCurvatureDir VRadius FQuality FMark
          FColor FFAdjacency FVFAdjacency FCurvatureDir FWedgeTexCoord];
    rewrite ?orb_true_r, ?orb_true_l; reflexivity.
Qed.

(** C10: [clear()] (and so the constructor) resets the flags, the transform
    and the selection counters and sets the mask to exactly the six
    always-active bits; [updateDataMask()] additionally sets [MM_VERTQUALITY]
    and [MM_VERTCOLOR], so the two baselines differ. *)
Theorem C10_clear_baseline (m m2 : MeshModel) :
  modified (clear m) = false /\ visible (clear m) = true /\
  Tr (cm (clear m)) = Identity44 /\ sfn (cm (clear m)) = 0 /\ svn (cm (clear m)) = 0 /\
  currentDataMask (clear m) =
    Z.lor (Z.lor (Z.lor (Z.lor (Z.lor MM_VERTCOORD MM_VERTNORMAL) MM_VERTFLAG)
      MM_FACEVERT) MM_FACENORMAL) MM_FACEFLAG /\
  hasDataMask (clear m) MM_VERTQUALITY = false /\ hasDataMask (clear m) MM_VERTCOLOR = false /\
  Z.land (currentDataMask (updateDataMask_sync m2))
    (Z.lor (Z.lor always_active_mask MM_VERTQUALITY) MM_VERTCOLOR) =
    Z.lor (Z.lor always_active_mask MM_VERTQUALITY) MM_VERTCOLOR /\
  currentDataMask (clear m) <> currentDataMask (updateDataMask_sync m2) /\
  (forall id fullFileName labelName,
     let n := MeshModel_new id fullFileName labelName in
     modified n = false /\ visible n = true /\ Tr (cm n) = Identity44 /\
     sfn (cm n) = 0 /\ svn (cm n) = 0 /\ currentDataMask n = currentDataMask (clear m)).
Proof.
  split; [reflexivity|]. split; [reflexivity|]. split; [reflexivity|].
  split; [reflexivity|]. split; [reflexivity|]. split; [reflexivity|].
  split; [reflexivity|]. split; [reflexivity|]. split; [|split].
  - apply Z.bits_inj'. intros i Hi. rewrite Z.land_spec.
    destruct (Z.testbit (Z.lor (Z.lor always_active_mask MM_VERTQUALITY) MM_VERTCOLOR) i)
      eqn:E; [|apply andb_false_r].
    rewrite andb_true_r. apply updateDataMask_sync_baseline.
    assert (i < 15) as Hlt.
    { destruct (Z.lt_ge_cases i 15) as [|Hge]; [assumption|].
      exfalso. revert E. unfold always_active_mask, MM_VERTCOORD, MM_VERTNORMAL,
        MM_VERTFLAG, MM_FACEVERT, MM_FACENORMAL, MM_FACEFLAG, MM_VERTQUALITY,
        MM_VERTCOLOR. rewrite !Z.lor_spec, !Z.shiftl_1_l, !Z.pow2_bits_eqb by lia.
      repeat (rewrite (proj2 (Z.eqb_neq _ _)) by lia). discriminate. }
    assert (i = 0 \/ i = 1 \/ i = 2 \/ i = 3 \/ i = 4 \/ i = 5 \/ i = 6 \/ i = 7 \/
            i = 8 \/ i = 9 \/ i = 10 \/ i = 11 \/ i = 12 \/ i = 13 \/ i = 14) as Hc by lia.
    repeat destruct Hc as [-> | Hc]; subst; try (vm_compute in E; discriminate E); simpl; tauto.
  - intros Heq. pose proof (updateDataMask_sync_baseline m2 3) as H3.
    rewrite <- Heq in H3. discriminate H3. simpl; tauto.
  - intros id f l. repeat split.
Qed.

(** ** [io2mm] *)

Lemma io2mm_mapped_iff (x : Z) :
  io2mm x <> AssertFailed <-> In x (map fst io2mm_cases).
Proof.
  split.
  - unfold io2mm. intros H.
    repeat match type of H with
    | context [if Z.eqb x ?c then _ else _] =>
        destruct (Z.eqb_spec x c) as [Hx|_];
        [rewrite Hx; simpl; repeat (first [left; reflexivity | right]) |]
    end.
    exfalso. apply H. reflexivity.
  - intros H. simpl in H. repeat destruct H as [<- | H]; [..|contradiction];
      vm_compute; discriminate.
Qed.

Lemma io2mm_cases_spec (p : Z * Z) :
  In p io2mm_cases -> io2mm (fst p) = Mapped (snd p).
Proof. simpl. intros H. repeat destruct H as [<- | H]; [..|contradiction]; reflexivity. Qed.

(** C9 (counterexample): the switch has seventeen case labels, so no
    eighteen distinct inputs all avoid the [assert(0)] branch. *)
Lemma C9_io2mm_not_eighteen :
  ~ exists l : list Z, length l = 18%nat /\ List.NoDup l /\
      List.Forall (fun x => io2mm x <> AssertFailed) l.
Proof.
  intros (l & Hlen & Hnd & Hall).
  assert (incl l (map fst io2mm_cases)) as Hinc.
  { intros x Hx. apply io2mm_mapped_iff.
    rewrite List.Forall_forall in Hall. apply Hall, Hx. }
  pose proof (NoDup_incl_length Hnd Hinc) as Hle.
  rewrite Hlen in Hle. simpl in Hle. lia.
Qed.

(** C9 (amended): [io2mm] avoids the [assert(0)] branch exactly on its
    seventeen case labels ([IOM_NONE] and sixteen single IO bits); on them
    it returns the matching MM bit, and distinct labels give distinct
    results. *)
Theorem C9_io2mm_amended :
  length io2mm_cases = 17%nat /\
  (forall x, io2mm x <> AssertFailed <-> In x (map fst io2mm_cases)) /\
  (forall p, In p io2mm_cases -> io2mm (fst p) = Mapped (snd p)) /\
  (forall x y, io2mm x <> AssertFailed -> io2mm x = io2mm y -> x = y) /\
  io2mm IOM_VERTCOLOR = Mapped MM_VERTCOLOR /\
  io2mm IOM_FACEINDEX = Mapped MM_FACEVERT /\
  io2mm IOM_BITPOLYGONAL = Mapped MM_POLYGONAL.
Proof.
  split; [reflexivity|]. split; [exact io2mm_mapped_iff|].
  split; [exact io2mm_cases_spec|]. split; [|repeat split].
  intros x y Hx Hxy.
  assert (io2mm y <> AssertFailed) as Hy by (rewrite <- Hxy; exact Hx).
  apply io2mm_mapped_iff in Hx, Hy. simpl in Hx, Hy.
  repeat destruct Hx as [<- | Hx]; [..|contradiction];
  repeat destruct Hy as [<- | Hy]; try contradiction;
  first [reflexivity | vm_compute in Hxy; discriminate Hxy].
Qed.

Lemma C9_io2mm_amended_witness :
  io2mm IOM_FACECOLOR <> AssertFailed /\ io2mm IOM_FACECOLOR = io2mm (Z.shiftl 1 8) /\
  IOM_FACECOLOR = Z.shiftl 1 8.
Proof.
  split; [vm_compute; discriminate|]. split; [reflexivity|].
  apply (proj1 (proj2 (proj2 (proj2 C9_io2mm_amended))) IOM_FACECOLOR (Z.shiftl 1 8));
    [vm_compute; discriminate | reflexivity].
Defined.

(** ** [loadTextures] *)

Section LoadTexturesProofs.

Variable loadImage : string -> option QImage.
Variable absoluteFilePath fileName filePath absolutePath : string -> string.
Variable dummy_png : QImage.

Lemma loadTextures_loop_spec (m : MeshModel) (names : list string) :
  forall (t : gmap string QImage) (u0 : list string),
  let r := loadTextures_loop loadImage absoluteFilePath fileName filePath absolutePath
             dummy_png m t u0 names in
  exists u, snd (fst r) = u0 ++ u /\
    LoadSpec loadImage absoluteFilePath filePath dummy_png (absolutePath (fullName m))
      t names (snd r) (fst (fst r)) u.
Proof.
  induction names as [|n rest IH]; intros t u0; cbn [loadTextures_loop].
  - exists []. rewrite app_nil_r. split; [reflexivity | constructor].
  - unfold loadTexture_step.
    destruct (t !! n) as [img0|] eqn:Hn.
    + destruct (IH t u0) as (u & Hu & Hs).
      destruct (loadTextures_loop _ _ _ _ _ _ _ _ _ _) as [[t' u'] rest'] eqn:Hr.
      cbn [fst snd] in *. exists u. split; [exact Hu|].
      apply LoadSpec_skip; [eexists; exact Hn | exact Hs].
    + destruct (loadImage (absoluteFilePath n)) as [img|] eqn:H1.
      * destruct (IH (<[fileName n := img]> t) u0) as (u & Hu & Hs).
        destruct (loadTextures_loop _ _ _ _ _ _ _ _ _ _) as [[t' u'] rest'] eqn:Hr.
        cbn [fst snd] in *. exists u. split; [exact Hu|].
        eapply LoadSpec_first; eassumption.
      * destruct (loadImage (absolutePath (fullName m) ++ "/" ++ filePath n)%string)
          as [img|] eqn:H2.
        -- destruct (IH (<[filePath n := img]> t) u0) as (u & Hu & Hs).
           destruct (loadTextures_loop _ _ _ _ _ _ _ _ _ _) as [[t' u'] rest'] eqn:Hr.
           cbn [fst snd] in *. exists u. split; [exact Hu|].
           eapply LoadSpec_second; eassumption.
        -- destruct (IH (<["dummy.png"%string := dummy_png]> t) (u0 ++ [n]))
             as (u & Hu & Hs).
           destruct (loadTextures_loop _ _ _ _ _ _ _ _ _ _) as [[t' u'] rest'] eqn:Hr.
           cbn [fst snd] in *. exists (n :: u). split.
           ++ rewrite Hu, <- app_assoc. reflexivity.
           ++ apply LoadSpec_dummy; assumption.
Qed.

End LoadTexturesProofs.

(** C5: [loadTextures] follows the two-level fallback: every name of the
    mesh's list not yet in the map is looked up first at its absolute path,
    then in the model's directory; only when both fail is the dummy image
    used, the name replaced by ["dummy.png"] and reported; names already in
    the map are skipped; the returned list is exactly the reported names,
    in order; nothing but the map and the mesh's texture list changes. *)
Theorem C5_loadTextures_fallback
    (loadImage : string -> option QImage)
    (absoluteFilePath fileName filePath absolutePath : string -> string)
    (dummy_png : QImage) (m : MeshModel) :
  let r := loadTextures loadImage absoluteFilePath fileName filePath absolutePath dummy_png m in
  LoadSpec loadImage absoluteFilePath filePath dummy_png (absolutePath (fullName m))
    (textures_map m) (Vcg.textures (cm m)) (Vcg.textures (cm (snd r)))
    (textures_map (snd r)) (fst r) /\
  snd r = set_textures_map (set_cm m (set_textures (cm m) (Vcg.textures (cm (snd r)))))
            (textures_map (snd r)).
Proof.
  cbv zeta. unfold loadTextures.
  destruct (loadTextures_loop_spec loadImage absoluteFilePath fileName filePath
              absolutePath dummy_png m (Vcg.textures (cm m)) (textures_map m) [])
    as (u & Hu & Hs).
  destruct (loadTextures_loop _ _ _ _ _ _ _ _ _ _) as [[t' u'] names'].
  cbn [fst snd] in *. subst u'. split; [exact Hs | reflexivity].
Qed.

(** ** Texture names *)

Lemma find_index_Some (x : string) (l : list string) (i : nat) :
  find_index x l = Some i ->
  exists pre post, l = pre ++ x :: post /\ ~ In x pre /\ length pre = i.
Proof.
  revert i. induction l as [|y l IH]; intros i H; cbn [find_index] in H; [discriminate|].
  destruct (String.eqb_spec y x) as [->|Hne].
  - injection H as <-. exists [], l. simpl. tauto.
  - destruct (find_index x l) as [j|] eqn:Hj; [|discriminate].
    injection H as <-. destruct (IH j eq_refl) as (pre & post & -> & Hni & Hlen).
    exists (y :: pre), post. simpl. split; [reflexivity|]. split; [|congruence].
    intros [Hy|Hy]; [congruence | contradiction].
Qed.

Lemma find_index_None (x : string) (l : list string) :
  find_index x l = None <-> ~ In x l.
Proof.
  induction l as [|y l IH]; cbn [find_index In]; [tauto|].
  destruct (String.eqb_spec y x) as [->|Hne].
  { split; [discriminate|]. intros H. exfalso. apply H. left. reflexivity. }
  destruct (find_index x l) as [j|] eqn:E.
  - split; [discriminate|]. intros H. exfalso. apply H. right.
    destruct (in_dec String.string_dec x l) as [Hi|Hi]; [exact Hi|].
    apply IH in Hi. discriminate.
  - split; [|reflexivity]. intros _ [Hy|Hy]; [congruence|].
    exact (proj1 IH eq_refl Hy).
Qed.

Lemma insert_at_length (pre post : list string) (x y : string) :
  <[length pre := y]> (pre ++ x :: post) = pre ++ y :: post.
Proof. induction pre as [|z pre IH]; simpl; [reflexivity | rewrite IH; reflexivity]. Qed.

(** C6: [changeTextureName] moves the image of [oldName] to [newName] in
    the map and renames the first list entry holding [oldName]; when the
    names are equal or [oldName] is missing from either structure nothing
    changes. *)
Theorem C6_changeTextureName (oldName newName : string) (m : MeshModel) :
  (oldName <> newName -> forall img,
     textures_map m !! oldName = Some img -> In oldName (Vcg.textures (cm m)) ->
     let m' := changeTextureName oldName newName m in
     textures_map m' !! newName = Some img /\ textures_map m' !! oldName = None /\
     (forall k, k <> oldName -> k <> newName -> textures_map m' !! k = textures_map m !! k) /\
     exists pre post, Vcg.textures (cm m) = pre ++ oldName :: post /\ ~ In oldName pre /\
       Vcg.textures (cm m') = pre ++ newName :: post) /\
  (oldName = newName \/ textures_map m !! oldName = None \/ ~ In oldName (Vcg.textures (cm m)) ->
     changeTextureName oldName newName m = m).
Proof.
  split.
  - intros Hne img Himg Hin. cbv zeta. unfold changeTextureName.
    rewrite (proj2 (String.eqb_neq _ _) Hne), Himg. cbn [negb].
    destruct (find_index oldName (Vcg.textures (cm m))) as [i|] eqn:Hf.
    2: { apply find_index_None in Hf. contradiction. }
    destruct (find_index_Some _ _ _ Hf) as (pre & post & Hl & Hni & <-).
    cbn [textures_map set_textures_map cm set_cm Vcg.textures set_textures].
    split; [rewrite lookup_delete_ne by congruence; apply lookup_insert_eq|].
    split; [apply lookup_delete_eq|].
    split.
    + intros k Hk1 Hk2. rewrite lookup_delete_ne by congruence.
      apply lookup_insert_ne. congruence.
    + exists pre, post. split; [exact Hl|]. split; [exact Hni|].
      rewrite Hl. apply insert_at_length.
  - intros H. unfold changeTextureName.
    destruct H as [<- | [H | H]].
    + rewrite String.eqb_refl. reflexivity.
    + rewrite H. destruct (negb _); reflexivity.
    + apply find_index_None in H. rewrite H.
      destruct (negb _); [destruct (textures_map m !! oldName)|]; reflexivity.
Qed.

Lemma C6_changeTextureName_witness :
  let m := addTexture "b" (QImageData [2]) (addTexture "a" (QImageData [1])
             (MeshModel_new 0 EmptyString EmptyString)) in
  textures_map (changeTextureName "a" "c" m) !! "c"%string = Some (QImageData [1]) /\
  changeTextureName "a" "a" m = m.
Proof.
  cbv zeta. split.
  - apply (proj1 (C6_changeTextureName "a" "c" _) ltac:(discriminate) (QImageData [1]));
      [reflexivity | vm_compute; left; reflexivity].
  - apply (proj2 (C6_changeTextureName "a" "a" _)). left. reflexivity.
Defined.

(** C7 (counterexample): three textures that fail to load all become
    ["dummy.png"]; renaming the map entry ["dummy.png"] leaves two list
    entries ["dummy.png"] with no map key, and [addTexture("dummy.png", ...)]
    then binds the key while the name is listed twice. *)
Lemma C7_addTexture_duplicate_remains :
  let m0 := set_cm (MeshModel_new 0 EmptyString EmptyString)
              (set_textures (cm (MeshModel_new 0 EmptyString EmptyString)) ["a"; "b"; "c"]%string) in
  let m1 := snd (loadTextures (fun _ => None) (fun s => s) (fun s => s) (fun s => s)
                   (fun s => s) (QImageData []) m0) in
  let m2 := changeTextureName "dummy.png" "z" m1 in
  let m3 := addTexture "dummy.png" (QImageData [7]) m2 in
  textures_map m2 !! "dummy.png"%string = None /\
  textures_map m3 !! "dummy.png"%string = Some (QImageData [7]) /\
  count_occ String.string_dec (Vcg.textures (cm m3)) "dummy.png" = 2%nat.
Proof. vm_compute. repeat split. Qed.

(** C7 (amended): when [name] is a key, [addTexture] changes nothing;
    otherwise the map binds [name] to the image, and [name] is appended to
    the mesh's list only when absent, so [addTexture] never adds a second
    copy: afterwards the name occurs [max 1 c] times, [c] its count before. *)
Theorem C7_addTexture_amended (name : string) (txt : QImage) (m : MeshModel) :
  (is_Some (textures_map m !! name) -> addTexture name txt m = m) /\
  (textures_map m !! name = None ->
     let m' := addTexture name txt m in
     textures_map m' = <[name := txt]> (textures_map m) /\
     (In name (Vcg.textures (cm m)) -> Vcg.textures (cm m') = Vcg.textures (cm m)) /\
     (~ In name (Vcg.textures (cm m)) -> Vcg.textures (cm m') = Vcg.textures (cm m) ++ [name]) /\
     count_occ String.string_dec (Vcg.textures (cm m')) name =
       Nat.max 1 (count_occ String.string_dec (Vcg.textures (cm m)) name)).
Proof.
  split.
  - intros [img Himg]. unfold addTexture. rewrite Himg. reflexivity.
  - intros Hnone. cbv zeta. unfold addTexture. rewrite Hnone.
    cbn [textures_map set_textures_map cm set_cm Vcg.textures set_textures].
    destruct (find_index name (Vcg.textures (cm m))) as [i|] eqn:Hf.
    + destruct (find_index_Some _ _ _ Hf) as (pre & post & Hl & _ & _).
      assert (In name (Vcg.textures (cm m))) as Hin
        by (rewrite Hl; apply in_or_app; right; left; reflexivity).
      split; [reflexivity|]. split; [reflexivity|]. split; [contradiction|].
      pose proof (proj1 (count_occ_In String.string_dec _ name) Hin). lia.
    + apply find_index_None in Hf.
      split; [reflexivity|]. split; [contradiction|]. split; [reflexivity|].
      rewrite count_occ_app, (proj1 (count_occ_not_In String.string_dec _ name) Hf).
      simpl. destruct (String.string_dec name name); [reflexivity | congruence].
Qed.

Lemma C7_addTexture_amended_witness :
  let m := addTexture "a" (QImageData [1]) (MeshModel_new 0 EmptyString EmptyString) in
  addTexture "a" (QImageData [2]) m = m /\
  count_occ String.string_dec
    (Vcg.textures (cm (addTexture "b" (QImageData [2]) m))) "b" = 1%nat.
Proof.
  cbv zeta. split.
  - apply (proj1 (C7_addTexture_amended "a" (QImageData [2]) _)).
    vm_compute. eexists. reflexivity.
  - destruct (proj2 (C7_addTexture_amended "b" (QImageData [2])
        (addTexture "a" (QImageData [1]) (MeshModel_new 0 EmptyString EmptyString))))
      as (_ & _ & _ & Hc); [vm_compute; reflexivity|].
    rewrite Hc. vm_compute. reflexivity.
Defined.

(** C8: [getTexture] returns the stored image, or the null [QImage()] for a
    missing key; [setTexture] overwrites an existing binding only and
    otherwise leaves the whole model unchanged. *)
Theorem C8_getTexture_setTexture (m : MeshModel) (tn name : string) (txt : QImage) :
  (forall img, textures_map m !! tn = Some img -> getTexture m tn = img) /\
  (textures_map m !! tn = None -> getTexture m tn = QImageNull) /\
  (is_Some (textures_map m !! name) ->
     setTexture name txt m = set_textures_map m (<[name := txt]> (textures_map m))) /\
  (textures_map m !! name = None -> setTexture name txt m = m).
Proof.
  unfold getTexture, setTexture. split; [|split; [|split]].
  - intros img H. rewrite H. reflexivity.
  - intros H. rewrite H. reflexivity.
  - intros [img H]. rewrite H. reflexivity.
  - intros H. rewrite H. reflexivity.
Qed.

Lemma C8_getTexture_setTexture_witness :
  let m := addTexture "a" (QImageData [1]) (MeshModel_new 0 EmptyString EmptyString) in
  getTexture m "a" = QImageData [1] /\ getTexture m "b" = QImageNull /\
  setTexture "b" (QImageData [3]) m = m /\
  setTexture "a" (QImageData [3]) m = set_textures_map m (<[ "a"%string := QImageData [3] ]> (textures_map m)).
Proof.
  cbv zeta.
  destruct (C8_getTexture_setTexture
              (addTexture "a" (QImageData [1]) (MeshModel_new 0 EmptyString EmptyString))
              "a" "b" (QImageData [3])) as (H1 & _ & _ & H4).
  destruct (C8_getTexture_setTexture
              (addTexture "a" (QImageData [1]) (MeshModel_new 0 EmptyString EmptyString))
              "b" "a" (QImageData [3])) as (_ & H2 & H3 & _).
  split; [apply H1; vm_compute; reflexivity|].
  split; [apply H2; vm_compute; reflexivity|].
  split; [apply H4; vm_compute; reflexivity|].
  apply H3. vm_compute. eexists. reflexivity.
Defined.

(** * Further properties of the code *)

(** ** Composing the data-mask operations *)

Lemma cmesh_ext (c1 c2 : CMeshO) :
  VFAdjacency (vert c1) = VFAdjacency (vert c2) -> VMark (vert c1) = VMark (vert c2) ->
  VTexCoord (vert c1) = VTexCoord (vert c2) -> VCurvature (vert c1) = VCurvature (vert c2) ->
  VCurvatureDir (vert c1) = VCurvatureDir (vert c2) -> VRadius (vert c1) = VRadius (vert c2) ->
  FFAdjacency (face c1) = FFAdjacency (face c2) -> FVFAdjacency (face c1) = FVFAdjacency (face c2) ->
  FQuality (face c1) = FQuality (face c2) -> FMark (face c1) = FMark (face c2) ->
  FColor (face c1) = FColor (face c2) -> FCurvatureDir (face c1) = FCurvatureDir (face c2) ->
  FWedgeTexCoord (face c1) = FWedgeTexCoord (face c2) ->
  Tr c1 = Tr c2 -> sfn c1 = sfn c2 -> svn c1 = svn c2 -> Vcg.textures c1 = Vcg.textures c2 ->
  c1 = c2.
Proof.
  destruct c1 as [[] [] ? ? ? ?], c2 as [[] [] ? ? ? ?]; cbn.
  intros; subst; reflexivity.
Qed.

Lemma do_if_keep {A} (P : CMeshO -> A) n b act c :
  (forall c, P (act c) = P c) -> P (do_if n b act c) = P c.
Proof. intros H. unfold do_if. destruct (negb _); [apply H | reflexivity]. Qed.

Lemma undo_if_keep {A} (P : CMeshO -> A) m u b act c :
  (forall c, P (act c) = P c) -> P (undo_if m u b act c) = P c.
Proof. intros H. unfold undo_if. destruct (_ && _); [apply H | reflexivity]. Qed.

(** Settle one field of a [cmesh_ext] goal: push the projection through
    every guard, turn the guards into bits and split on them. *)
Ltac field_close :=
  repeat ocf_step;
  repeat match goal with
  | |- context [?P (do_if ?n ?b ?a ?c)] =>
      rewrite (do_if_keep P n b a c) by (intros; reflexivity)
  | |- context [?P (undo_if ?m ?u ?b ?a ?c)] =>
      rewrite (undo_if_keep P m u b a c) by (intros; reflexivity)
  end;
  ocf_close; cbn [currentDataMask set_mask set_cm cm];
  rewrite ?Z.lor_spec, ?Z.land_spec; rewrite ?Z.lnot_spec by lia;
  repeat match goal with |- context [Z.testbit ?x ?k] => destruct (Z.testbit x k) end;
  reflexivity.

Lemma updateDataMask_compose_cm (a b : Z) (m : MeshModel) :
  cm (updateDataMask a (updateDataMask b m)) = cm (updateDataMask (Z.lor b a) m).
Proof.
  unfold updateDataMask; cbn [cm set_mask set_cm currentDataMask].
  apply cmesh_ext; field_close.
Qed.

Lemma clearDataMask_compose_cm (a b : Z) (m : MeshModel) :
  cm (clearDataMask a (clearDataMask b m)) = cm (clearDataMask (Z.lor b a) m).
Proof.
  unfold clearDataMask; cbn [cm set_mask set_cm currentDataMask].
  apply cmesh_ext; field_close.
Qed.

Lemma undo_if_off (m : MeshModel) (u k : Z) act c :
  0 <= k -> Z.land (currentDataMask m) u = 0 -> undo_if m u (Z.shiftl 1 k) act c = c.
Proof.
  intros Hk H. unfold undo_if.
  rewrite land_single_bit, hasDataMask_bit by exact Hk. rewrite negb_involutive.
  assert (Z.testbit (Z.land (currentDataMask m) u) k = false) as T
    by (rewrite H; apply Z.bits_0).
  rewrite Z.land_spec in T. rewrite andb_comm, T. reflexivity.
Qed.

Lemma enable_if_on (o iobit mmbit : Z) (m : MeshModel) :
  int_to_bool (Z.land o iobit) = true -> enable_if o iobit mmbit m = updateDataMask mmbit m.
Proof. intros H. unfold enable_if. rewrite H. reflexivity. Qed.

Lemma enable_if_off (o iobit mmbit : Z) (m : MeshModel) :
  int_to_bool (Z.land o iobit) = false -> enable_if o iobit mmbit m = m.
Proof. intros H. unfold enable_if. rewrite H. reflexivity. Qed.

(** X1: two successive [updateDataMask] calls act as one call with the
    union of the two masks; in particular the call is idempotent. *)
Theorem X1_updateDataMask_compose (a b : Z) (m : MeshModel) :
  updateDataMask a (updateDataMask b m) = updateDataMask (Z.lor b a) m /\
  updateDataMask a (updateDataMask a m) = updateDataMask a m.
Proof.
  assert (forall a b, updateDataMask a (updateDataMask b m) = updateDataMask (Z.lor b a) m)
    as Hc.
  { intros a' b'.
    transitivity (set_mask (set_cm m (cm (updateDataMask a' (updateDataMask b' m))))
                   (Z.lor (Z.lor (currentDataMask m) b') a')); [reflexivity|].
    rewrite updateDataMask_compose_cm, <- Z.lor_assoc. reflexivity. }
  split; [apply Hc|]. rewrite Hc, Z.lor_diag. reflexivity.
Qed.

(** X2: two successive [clearDataMask] calls act as one call with the
    union of the two masks. *)
Theorem X2_clearDataMask_compose (a b : Z) (m : MeshModel) :
  clearDataMask a (clearDataMask b m) = clearDataMask (Z.lor b a) m.
Proof.
  transitivity (set_mask (set_cm m (cm (clearDataMask a (clearDataMask b m))))
                 (Z.land (Z.land (currentDataMask m) (Z.lnot b)) (Z.lnot a))); [reflexivity|].
  rewrite clearDataMask_compose_cm, <- Z.land_assoc, <- Z.lnot_lor. reflexivity.
Qed.

(** X3: [clearDataMask(u)] with no bit of [u] set in the current mask
    changes nothing at all: every disable is guarded by [hasDataMask]. *)
Theorem X3_clearDataMask_disjoint_noop (u : Z) (m : MeshModel) :
  Z.land (currentDataMask m) u = 0 -> clearDataMask u m = m.
Proof.
  intros H. unfold clearDataMask. mm_bits.
  rewrite !undo_if_off by (lia || exact H).
  assert (Z.land (currentDataMask m) (Z.lnot u) = currentDataMask m) as Hm.
  { apply Z.bits_inj'. intros i Hi.
    assert (Z.testbit (Z.land (currentDataMask m) u) i = false) as T
      by (rewrite H; apply Z.bits_0).
    rewrite Z.land_spec in T. rewrite Z.land_spec, Z.lnot_spec by exact Hi.
    destruct (Z.testbit (currentDataMask m) i), (Z.testbit u i); try discriminate; reflexivity. }
  rewrite Hm. destruct m. reflexivity.
Qed.

Lemma X3_clearDataMask_disjoint_noop_witness :
  let m := updateDataMask MM_VERTMARK (MeshModel_new 0 EmptyString EmptyString) in
  Z.land (currentDataMask m) MM_FACEMARK = 0 /\ clearDataMask MM_FACEMARK m = m.
Proof.
  cbv zeta. split; [vm_compute; reflexivity|].
  apply X3_clearDataMask_disjoint_noop. vm_compute. reflexivity.
Defined.

(** X4: on a single IO bit it handles, [enable] does what [io2mm]
    translates it to: it is [updateDataMask(io2mm(bit))]; the one exception
    is [IOM_CAMERA], which [enable] maps to [MM_CAMERA] while [io2mm] has no
    case for it and hits [assert(0)]. *)
Theorem X4_enable_agrees_with_io2mm (io : Z) (m : MeshModel) :
  In io enable_iobits ->
  (io <> IOM_CAMERA ->
     io2mm io <> AssertFailed /\ enable io m = updateDataMask (io2mm_release io) m) /\
  (io = IOM_CAMERA ->
     io2mm io = AssertFailed /\ enable io m = updateDataMask MM_CAMERA m).
Proof.
  intros H. unfold enable_iobits in H.
  repeat destruct H as [<- | H]; try contradiction;
    (split; intros Hc; [try (exfalso; apply Hc; reflexivity)
                       | try (exfalso; vm_compute in Hc; discriminate Hc)]);
    (split; [vm_compute; try discriminate; reflexivity|]);
    unfold enable;
    repeat first [ rewrite enable_if_off by reflexivity
                 | rewrite enable_if_on by reflexivity ];
    reflexivity.
Qed.

Lemma X4_enable_agrees_with_io2mm_witness :
  In IOM_FACECOLOR enable_iobits /\
  enable IOM_FACECOLOR (MeshModel_new 0 EmptyString EmptyString) =
  updateDataMask (io2mm_release IOM_FACECOLOR) (MeshModel_new 0 EmptyString EmptyString).
Proof.
  assert (In IOM_FACECOLOR enable_iobits) as Hin by (vm_compute; tauto).
  split; [exact Hin|].
  apply (proj1 (X4_enable_agrees_with_io2mm IOM_FACECOLOR _ Hin)).
  vm_compute. discriminate.
Defined.

(** ** Texture list and texture map *)

Lemma textures_consistent_iff (m : MeshModel) :
  textures_consistent m = true <->
  Forall (fun n => is_Some (textures_map m !! n)) (Vcg.textures (cm m)).
Proof.
  unfold textures_consistent. rewrite forallb_forall, List.Forall_forall.
  split; intros H n Hn; specialize (H n Hn).
  - destruct (textures_map m !! n); [eexists; reflexivity | discriminate].
  - destruct H as [img ->]. reflexivity.
Qed.

Lemma MeshModel_eta (m : MeshModel) :
  set_textures_map (set_cm m (set_textures (cm m) (Vcg.textures (cm m)))) (textures_map m) = m.
Proof. destruct m as [? ? ? ? ? ? [] ?]. reflexivity. Qed.

Section LoadTexturesKeys.

Variable loadImage : string -> option QImage.
Variable absoluteFilePath fileName filePath absolutePath : string -> string.
Variable dummy_png : QImage.

Let step := loadTexture_step loadImage absoluteFilePath fileName filePath absolutePath dummy_png.
Let loop := loadTextures_loop loadImage absoluteFilePath fileName filePath absolutePath dummy_png.

Lemma loadTexture_step_keys (m : MeshModel) t u n :
  let r := step m t u n in
  is_Some (fst (fst r) !! snd r) /\
  (forall k, is_Some (t !! k) -> is_Some (fst (fst r) !! k)).
Proof.
  unfold step, loadTexture_step.
  destruct (t !! n) as [img0|] eqn:Hn; cbn [fst snd].
  { split; [eexists; exact Hn | tauto]. }
  repeat match goal with
  | |- context [match ?o with Some _ => _ | None => _ end] => destruct o
  end; cbn [fst snd];
    (split; [rewrite lookup_insert_eq; eexists; reflexivity
            | intros k Hk; apply lookup_insert_is_Some'; right; exact Hk]).
Qed.

Lemma loadTextures_loop_keys (m : MeshModel) (names : list string) :
  forall t u0,
  let r := loop m t u0 names in
  (forall k, is_Some (t !! k) -> is_Some (fst (fst r) !! k)) /\
  Forall (fun n => is_Some (fst (fst r) !! n)) (snd r) /\
  length (snd r) = length names.
Proof.
  induction names as [|n rest IH]; intros t u0; unfold loop in *; cbn [loadTextures_loop].
  { cbn. split; [tauto|]. split; [constructor | reflexivity]. }
  pose proof (loadTexture_step_keys m t u0 n) as [Hs1 Hs2]. unfold step in *.
  destruct (loadTexture_step _ _ _ _ _ _ _ _ _ _) as [[t1 u1] n1].
  cbn [fst snd] in *.
  specialize (IH t1 u1).
  destruct (loadTextures_loop _ _ _ _ _ _ _ _ _ _) as [[t' u'] rest'].
  cbn [fst snd] in *. destruct IH as (IH1 & IH2 & IH3).
  split; [intros k Hk; apply IH1, Hs2, Hk|].
  split; [constructor; [apply IH1, Hs1 | exact IH2] | cbn; rewrite IH3; reflexivity].
Qed.

Lemma loadTextures_loop_skip (m : MeshModel) (names : list string) :
  forall t u0, Forall (fun n => is_Some (t !! n)) names -> loop m t u0 names = (t, u0, names).
Proof.
  induction names as [|n rest IH]; intros t u0 H; [reflexivity|].
  inversion H as [|? ? [img Hn] Hrest]; subst.
  unfold loop in *. cbn [loadTextures_loop]. unfold loadTexture_step. rewrite Hn.
  rewrite IH by exact Hrest. reflexivity.
Qed.

End LoadTexturesKeys.

Lemma loadTextures_keys
    (loadImage : string -> option QImage)
    (absoluteFilePath fileName filePath absolutePath : string -> string)
    (dummy_png : QImage) (m : MeshModel) :
  let m' := snd (loadTextures loadImage absoluteFilePath fileName filePath absolutePath
                   dummy_png m) in
  textures_consistent m' = true /\
  (forall k, is_Some (textures_map m !! k) -> is_Some (textures_map m' !! k)) /\
  length (Vcg.textures (cm m')) = length (Vcg.textures (cm m)).
Proof.
  cbv zeta. unfold loadTextures.
  pose proof (loadTextures_loop_keys loadImage absoluteFilePath fileName filePath
                absolutePath dummy_png m (Vcg.textures (cm m)) (textures_map m) []) as H.
  destruct (loadTextures_loop _ _ _ _ _ _ _ _ _ _) as [[t' u'] names'].
  cbn [fst snd] in *. destruct H as (H1 & H2 & H3).
  split; [apply textures_consistent_iff; exact H2|]. split; [exact H1 | exact H3].
Qed.

Lemma loadTextures_skip
    (loadImage : string -> option QImage)
    (absoluteFilePath fileName filePath absolutePath : string -> string)
    (dummy_png : QImage) (m : MeshModel) :
  textures_consistent m = true ->
  loadTextures loadImage absoluteFilePath fileName filePath absolutePath dummy_png m = ([], m).
Proof.
  intros H. apply textures_consistent_iff in H. unfold loadTextures.
  rewrite (loadTextures_loop_skip loadImage absoluteFilePath fileName filePath
             absolutePath dummy_png m _ _ [] H).
  rewrite MeshModel_eta. reflexivity.
Qed.

(** X5: after [loadTextures] every name of the mesh's texture list is a key
    of the map; no key is ever removed, and the list keeps its length. *)
Theorem X5_loadTextures_consistent
    (loadImage : string -> option QImage)
    (absoluteFilePath fileName filePath absolutePath : string -> string)
    (dummy_png : QImage) (m : MeshModel) :
  let m' := snd (loadTextures loadImage absoluteFilePath fileName filePath absolutePath
                   dummy_png m) in
  textures_consistent m' = true /\
  (forall k, is_Some (textures_map m !! k) -> is_Some (textures_map m' !! k)) /\
  length (Vcg.textures (cm m')) = length (Vcg.textures (cm m)).
Proof. apply loadTextures_keys. Qed.

(** X6: when every listed name is already a key, [loadTextures] loads
    nothing, returns an empty list and leaves the model unchanged. *)
Theorem X6_loadTextures_all_present
    (loadImage : string -> option QImage)
    (absoluteFilePath fileName filePath absolutePath : string -> string)
    (dummy_png : QImage) (m : MeshModel) :
  textures_consistent m = true ->
  loadTextures loadImage absoluteFilePath fileName filePath absolutePath dummy_png m = ([], m).
Proof. apply loadTextures_skip. Qed.

Lemma X6_loadTextures_all_present_witness :
  let m := addTexture "a" (QImageData [1]) (MeshModel_new 0 EmptyString EmptyString) in
  textures_consistent m = true /\
  loadTextures (fun _ => None) (fun s => s) (fun s => s) (fun s => s) (fun s => s)
    (QImageData []) m = ([], m).
Proof.
  cbv zeta. split; [vm_compute; reflexivity|].
  apply X6_loadTextures_all_present. vm_compute. reflexivity.
Defined.

(** X7: [loadTextures] is idempotent: a second call loads nothing, returns
    an empty list and leaves the model as the first call left it. *)
Theorem X7_loadTextures_idempotent
    (loadImage : string -> option QImage)
    (absoluteFilePath fileName filePath absolutePath : string -> string)
    (dummy_png : QImage) (m : MeshModel) :
  let m' := snd (loadTextures loadImage absoluteFilePath fileName filePath absolutePath
                   dummy_png m) in
  loadTextures loadImage absoluteFilePath fileName filePath absolutePath dummy_png m' = ([], m').
Proof.
  cbv zeta. apply loadTextures_skip.
  apply (loadTextures_keys loadImage absoluteFilePath fileName filePath absolutePath dummy_png m).
Qed.

Lemma Forall_keys_insert (t : gmap string QImage) (k : string) (img : QImage) (l : list string) :
  Forall (fun n => is_Some (t !! n)) l -> Forall (fun n => is_Some (<[k := img]> t !! n)) l.
Proof.
  intros H. eapply Forall_impl; [exact H|]. intros x Hx. apply lookup_insert_is_Some'. right. exact Hx.
Qed.

Lemma addTexture_keys (name : string) (txt : QImage) (m : MeshModel) :
  textures_consistent m = true -> textures_consistent (addTexture name txt m) = true.
Proof.
  rewrite !textures_consistent_iff. intros H. unfold addTexture.
  destruct (textures_map m !! name) eqn:Hn; [exact H|].
  cbn [textures_map set_textures_map cm set_cm Vcg.textures set_textures].
  apply Forall_keys_insert with (k := name) (img := txt) in H.
  destruct (find_index name (Vcg.textures (cm m))); [exact H|].
  apply Forall_app. split; [exact H|]. constructor; [|constructor].
  rewrite lookup_insert_eq. eexists. reflexivity.
Qed.

Lemma setTexture_keys (name : string) (txt : QImage) (m : MeshModel) :
  textures_consistent m = true -> textures_consistent (setTexture name txt m) = true.
Proof.
  rewrite !textures_consistent_iff. intros H. unfold setTexture.
  destruct (textures_map m !! name); [|exact H].
  apply Forall_keys_insert. exact H.
Qed.

Lemma changeTextureName_keys (oldName newName : string) (m : MeshModel) :
  textures_consistent m = true ->
  (count_occ String.string_dec (Vcg.textures (cm m)) oldName <= 1)%nat ->
  textures_consistent (changeTextureName oldName newName m) = true.
Proof.
  rewrite !textures_consistent_iff. intros H Hc. unfold changeTextureName.
  destruct (String.eqb_spec oldName newName) as [_|Hne]; [exact H|]. cbn [negb].
  destruct (textures_map m !! oldName) as [img|] eqn:Hold; [|exact H].
  destruct (find_index oldName (Vcg.textures (cm m))) as [i|] eqn:Hf; [|exact H].
  destruct (find_index_Some _ _ _ Hf) as (pre & post & Hl & Hni & <-).
  cbn [textures_map set_textures_map cm set_cm Vcg.textures set_textures].
  rewrite Hl in H, Hc |- *. rewrite insert_at_length.
  rewrite count_occ_app in Hc. cbn [count_occ] in Hc.
  destruct (String.string_dec oldName oldName) as [_|]; [|congruence].
  assert (~ In oldName post) as Hnp.
  { intros Hin. apply (count_occ_In String.string_dec) in Hin. lia. }
  apply Forall_app in H as [Hpre Hpost]. inversion Hpost as [|? ? _ Hpost']; subst.
  assert (forall x, x <> oldName -> is_Some (textures_map m !! x) ->
            is_Some (delete oldName (<[newName := img]> (textures_map m)) !! x)) as Hk.
  { intros x Hx Hs. rewrite lookup_delete_ne by congruence.
    apply lookup_insert_is_Some'. right. exact Hs. }
  apply Forall_app. split; [|constructor].
  - apply List.Forall_forall. intros x Hx. apply Hk; [congruence|].
    exact (proj1 (List.Forall_forall _ _) Hpre x Hx).
  - rewrite lookup_delete_ne by congruence. rewrite lookup_insert_eq. eexists. reflexivity.
  - apply List.Forall_forall. intros x Hx. apply Hk; [congruence|].
    exact (proj1 (List.Forall_forall _ _) Hpost' x Hx).
Qed.

(** X8: [addTexture] and [setTexture] keep every listed texture name a key
    of the map, and [clearTextures] empties both the list and the map, after
    which [getTexture] returns the null image for every name. *)
Theorem X8_texture_ops_keep_keys (name : string) (txt : QImage) (m : MeshModel) :
  textures_consistent m = true ->
  textures_consistent (addTexture name txt m) = true /\
  textures_consistent (setTexture name txt m) = true /\
  Vcg.textures (cm (clearTextures m)) = [] /\ textures_map (clearTextures m) = ∅ /\
  (forall k, getTexture (clearTextures m) k = QImageNull).
Proof.
  intros H. split; [apply addTexture_keys, H|]. split; [apply setTexture_keys, H|].
  split; [reflexivity|]. split; [reflexivity|]. intros k. reflexivity.
Qed.

Lemma X8_texture_ops_keep_keys_witness :
  let m := addTexture "a" (QImageData [1]) (MeshModel_new 0 EmptyString EmptyString) in
  textures_consistent m = true /\ textures_consistent (addTexture "b" (QImageData [2]) m) = true.
Proof.
  cbv zeta. assert (textures_consistent
    (addTexture "a" (QImageData [1]) (MeshModel_new 0 EmptyString EmptyString)) = true) as H
    by (vm_compute; reflexivity).
  split; [exact H|]. apply (X8_texture_ops_keep_keys "b" (QImageData [2]) _ H).
Defined.

(** X9: [changeTextureName] keeps every listed texture name a key of the
    map as long as [oldName] is listed at most once (with two entries the
    second one is left without a key). *)
Theorem X9_changeTextureName_keeps_keys (oldName newName : string) (m : MeshModel) :
  textures_consistent m = true ->
  (count_occ String.string_dec (Vcg.textures (cm m)) oldName <= 1)%nat ->
  textures_consistent (changeTextureName oldName newName m) = true.
Proof. apply changeTextureName_keys. Qed.

Lemma X9_changeTextureName_keeps_keys_witness :
  let m := addTexture "a" (QImageData [1]) (MeshModel_new 0 EmptyString EmptyString) in
  textures_consistent m = true /\
  (count_occ String.string_dec (Vcg.textures (cm m)) "a" <= 1)%nat /\
  textures_consistent (changeTextureName "a" "c" m) = true.
Proof.
  cbv zeta.
  assert (textures_consistent
    (addTexture "a" (QImageData [1]) (MeshModel_new 0 EmptyString EmptyString)) = true) as H1
    by (vm_compute; reflexivity).
  assert ((count_occ String.string_dec (Vcg.textures (cm
    (addTexture "a" (QImageData [1%Z]) (MeshModel_new 0%Z EmptyString EmptyString)))) "a" <= 1)%nat)
    as H2 by (vm_compute; lia).
  split; [exact H1|]. split; [exact H2|].
  apply X9_changeTextureName_keeps_keys; [exact H1 | exact H2].
Defined.

Lemma find_index_app (x : string) (pre post : list string) :
  ~ In x pre -> find_index x (pre ++ x :: post) = Some (length pre).
Proof.
  intros H. induction pre as [|y pre IH]; cbn [find_index app length].
  - rewrite String.eqb_refl. reflexivity.
  - destruct (String.eqb_spec y x) as [->|_]; [exfalso; apply H; left; reflexivity|].
    rewrite IH; [reflexivity|]. intros Hin. apply H. right. exact Hin.
Qed.

(** X10: renaming a texture to a fresh name and back restores the model:
    when [oldName] is a key and listed, and [newName] is neither, then
    [changeTextureName(newName, oldName)] undoes
    [changeTextureName(oldName, newName)]. *)
Theorem X10_changeTextureName_round_trip (oldName newName : string) (m : MeshModel) :
  oldName <> newName ->
  is_Some (textures_map m !! oldName) -> In oldName (Vcg.textures (cm m)) ->
  textures_map m !! newName = None -> ~ In newName (Vcg.textures (cm m)) ->
  changeTextureName newName oldName (changeTextureName oldName newName m) = m.
Proof.
  intros Hne [img Hold] Hin Hnew Hnin.
  destruct (find_index oldName (Vcg.textures (cm m))) as [i|] eqn:Hf.
  2: { apply find_index_None in Hf. contradiction. }
  destruct (find_index_Some _ _ _ Hf) as (pre & post & Hl & Hni & <-).
  assert (~ In newName pre) as Hnp
    by (intros H; apply Hnin; rewrite Hl; apply in_or_app; left; exact H).
  assert (changeTextureName oldName newName m =
          set_textures_map (set_cm m (set_textures (cm m) (pre ++ newName :: post)))
            (delete oldName (<[newName := img]> (textures_map m)))) as Hfirst.
  { unfold changeTextureName.
    rewrite (proj2 (String.eqb_neq _ _) Hne), Hold, Hf. cbn [negb].
    rewrite Hl, insert_at_length. reflexivity. }
  rewrite Hfirst. unfold changeTextureName.
  cbn [textures_map set_textures_map cm set_cm Vcg.textures set_textures].
  rewrite (proj2 (String.eqb_neq newName oldName) (not_eq_sym Hne)). cbn [negb].
  rewrite lookup_delete_ne by congruence. rewrite lookup_insert_eq.
  rewrite find_index_app by exact Hnp.
  rewrite insert_at_length.
  replace (delete newName (<[oldName := img]> (delete oldName (<[newName := img]> (textures_map m)))))
    with (textures_map m).
  - rewrite <- Hl. destruct m as [? ? ? ? ? ? [] ?]. reflexivity.
  - apply map_eq. intros k.
    destruct (String.eqb_spec k newName) as [->|Hk1].
    { rewrite lookup_delete_eq. exact Hnew. }
    rewrite lookup_delete_ne by congruence.
    destruct (String.eqb_spec k oldName) as [->|Hk2].
    { rewrite lookup_insert_eq. exact Hold. }
    rewrite lookup_insert_ne, lookup_delete_ne, lookup_insert_ne by congruence.
    reflexivity.
Qed.

Lemma X10_changeTextureName_round_trip_witness :
  let m := addTexture "b" (QImageData [2]) (addTexture "a" (QImageData [1])
             (MeshModel_new 0 EmptyString EmptyString)) in
  changeTextureName "c" "a" (changeTextureName "a" "c" m) = m.
Proof.
  cbv zeta. apply X10_changeTextureName_round_trip.
  - discriminate.
  - vm_compute. eexists. reflexivity.
  - vm_compute. left. reflexivity.
  - vm_compute. reflexivity.
  - vm_compute. intros [H | [H | H]]; [discriminate | discriminate | exact H].
Defined.

(** ** Saving textures *)

Lemma saveTextures_loop_keys (saveImage : string -> QImage -> bool) (basePath : string)
    (t : gmap string QImage) (names : list string) :
  Forall (fun n => is_Some (t !! n)) names ->
  forall n, snd (saveTextures_loop saveImage basePath t names) <> Some (OutOfRange n).
Proof.
  induction names as [|x rest IH]; intros H n; cbn [saveTextures_loop]; [discriminate|].
  inversion H as [|? ? [img Hx] Hrest]; subst. rewrite Hx.
  destruct (saveImage _ img); [|discriminate].
  specialize (IH Hrest n).
  destruct (saveTextures_loop _ _ _ rest) as [w e]. exact IH.
Qed.

Lemma saveTextures_loop_all (saveImage : string -> QImage -> bool) (basePath : string)
    (t : gmap string QImage) (names : list string) :
  (forall p img, saveImage p img = true) ->
  Forall (fun n => is_Some (t !! n)) names ->
  saveTextures_loop saveImage basePath t names =
  (map (fun n => ((basePath ++ "/" ++ n)%string,
                  match t !! n with Some img => img | None => QImageNull end)) names, None).
Proof.
  intros Hs. induction names as [|x rest IH]; intros H; [reflexivity|].
  inversion H as [|? ? [img Hx] Hrest]; subst.
  cbn [saveTextures_loop map]. rewrite Hx, Hs, (IH Hrest). reflexivity.
Qed.

(** X11: when every listed texture name is a key and every image write
    succeeds, [saveTextures] writes one file per listed name, in list order,
    at [basePath/name] with the image [getTexture(name)], and ends normally. *)
Theorem X11_saveTextures_writes_all (saveImage : string -> QImage -> bool)
    (basePath : string) (m : MeshModel) :
  textures_consistent m = true ->
  (forall p img, saveImage p img = true) ->
  saveTextures saveImage basePath m =
  (map (fun n => ((basePath ++ "/" ++ n)%string, getTexture m n)) (Vcg.textures (cm m)), None).
Proof.
  intros H Hs. apply textures_consistent_iff in H.
  unfold saveTextures. rewrite saveTextures_loop_all by assumption. reflexivity.
Qed.

Lemma X11_saveTextures_writes_all_witness :
  let m := addTexture "b" (QImageData [2]) (addTexture "a" (QImageData [1])
             (MeshModel_new 0 EmptyString EmptyString)) in
  textures_consistent m = true /\
  saveTextures (fun _ _ => true) "out" m =
  ([("out/a"%string, QImageData [1]); ("out/b"%string, QImageData [2])], None).
Proof.
  cbv zeta.
  assert (textures_consistent (addTexture "b" (QImageData [2]) (addTexture "a" (QImageData [1])
            (MeshModel_new 0 EmptyString EmptyString))) = true) as H by (vm_compute; reflexivity).
  split; [exact H|].
  rewrite (X11_saveTextures_writes_all (fun _ _ => true) "out" _ H (fun _ _ => eq_refl)).
  vm_compute. reflexivity.
Defined.

(** X12: a listed texture name that is not a key makes [textures.at]
    throw [std::out_of_range]: with the earlier names all keys and all
    writes succeeding, [saveTextures] writes the earlier textures and stops
    at the first missing name, writing nothing for it or after it. *)
Theorem X12_saveTextures_out_of_range (saveImage : string -> QImage -> bool)
    (basePath : string) (m : MeshModel) (pre post : list string) (n : string) :
  Vcg.textures (cm m) = pre ++ n :: post ->
  Forall (fun k => is_Some (textures_map m !! k)) pre ->
  textures_map m !! n = None ->
  (forall p img, saveImage p img = true) ->
  saveTextures saveImage basePath m =
  (map (fun k => ((basePath ++ "/" ++ k)%string, getTexture m k)) pre, Some (OutOfRange n)).
Proof.
  intros Hl Hpre Hn Hs. unfold saveTextures. rewrite Hl. clear Hl.
  induction pre as [|x rest IH]; cbn [saveTextures_loop app map].
  - rewrite Hn. reflexivity.
  - inversion Hpre as [|? ? [img Hx] Hrest]; subst.
    rewrite Hx, Hs, (IH Hrest). unfold getTexture. rewrite Hx. reflexivity.
Qed.

Lemma X12_saveTextures_out_of_range_witness :
  let m := set_cm (addTexture "a" (QImageData [1]) (MeshModel_new 0 EmptyString EmptyString))
             (set_textures (cm (MeshModel_new 0 EmptyString EmptyString)) ["a"; "x"; "a"]%string) in
  saveTextures (fun _ _ => true) "out" m =
  ([("out/a"%string, QImageData [1])], Some (OutOfRange "x")).
Proof.
  cbv zeta.
  rewrite (X12_saveTextures_out_of_range (fun _ _ => true) "out" _ ["a"%string]
             ["a"%string] "x"); [vm_compute; reflexivity | vm_compute; reflexivity | |
                                   vm_compute; reflexivity | reflexivity].
  constructor; [vm_compute; eexists; reflexivity | constructor].
Defined.

(** X13: after [loadTextures], [saveTextures] never throws
    [std::out_of_range], whatever happens when the images are written. *)
Theorem X13_saveTextures_after_loadTextures
    (loadImage : string -> option QImage)
    (absoluteFilePath fileName filePath absolutePath : string -> string)
    (dummy_png : QImage) (saveImage : string -> QImage -> bool)
    (basePath : string) (m : MeshModel) (n : string) :
  let m' := snd (loadTextures loadImage absoluteFilePath fileName filePath absolutePath
                   dummy_png m) in
  snd (saveTextures saveImage basePath m') <> Some (OutOfRange n).
Proof.
  cbv zeta. unfold saveTextures. apply saveTextures_loop_keys.
  apply textures_consistent_iff.
  apply (loadTextures_keys loadImage absoluteFilePath fileName filePath absolutePath dummy_png m).
Qed.

(** ** What the data-mask operations leave alone *)

Lemma updateDataMask_frame (n : Z) (m : MeshModel) :
  frame_of (updateDataMask n m) = frame_of m.
Proof.
  unfold frame_of, updateDataMask. cbn [cm set_mask set_cm textures_map _id
    fullPathFileName _label].
  repeat match goal with
  | |- context [Vcg.textures (do_if ?n ?b ?a ?c)] =>
      rewrite (do_if_keep Vcg.textures n b a c) by (intros; reflexivity)
  end.
  reflexivity.
Qed.

Lemma enable_if_frame (o iobit mmbit : Z) (m : MeshModel) :
  frame_of (enable_if o iobit mmbit m) = frame_of m.
Proof. unfold enable_if. destruct (int_to_bool _); [apply updateDataMask_frame | reflexivity]. Qed.

Lemma clearDataMask_frame (u : Z) (m : MeshModel) :
  frame_of (clearDataMask u m) = frame_of m.
Proof.
  unfold frame_of, clearDataMask. cbn [cm set_mask set_cm textures_map _id
    fullPathFileName _label].
  repeat match goal with
  | |- context [Vcg.textures (undo_if ?m ?u ?b ?a ?c)] =>
      rewrite (undo_if_keep Vcg.textures m u b a c) by (intros; reflexivity)
  end.
  reflexivity.
Qed.

Lemma apply_op_frame (op : PublicOp) (m : MeshModel) :
  frame_of (apply_op op m) = frame_of m.
Proof.
  destruct op; cbn [apply_op].
  - reflexivity.
  - reflexivity.
  - apply updateDataMask_frame.
  - apply updateDataMask_frame.
  - apply clearDataMask_frame.
  - unfold enable. rewrite !enable_if_frame. reflexivity.
Qed.

(** X14: no sequence of the data-mask operations ([clear], the three
    [updateDataMask], [clearDataMask], [enable]) changes the texture map,
    the mesh's texture list, the id, the file name or the label. *)
Theorem X14_datamask_ops_frame (ops : list PublicOp) (m : MeshModel) :
  let m' := run ops m in
  textures_map m' = textures_map m /\ Vcg.textures (cm m') = Vcg.textures (cm m) /\
  _id m' = _id m /\ fullPathFileName m' = fullPathFileName m /\ _label m' = _label m.
Proof.
  cbv zeta. assert (frame_of (run ops m) = frame_of m) as H.
  { unfold run. revert m. induction ops as [|op ops IH]; intros m; [reflexivity|].
    cbn [fold_left]. rewrite IH. apply apply_op_frame. }
  unfold frame_of in H. injection H as H1 H2 H3 H4 H5. tauto.
Qed.
